(** * insiders.py: sponsorship-driven team membership reconciliation

    A shallow embedding of [src/insiders.py].  Python sets of handles are
    finite sets of strings ([gset string]), the [ORG_USERS] dictionary is a
    finite map, Python integers are [Z].  What surrounds the
    script is one value, the [World] of a run: the responses of the HTTP
    provider, what [datetime.strptime] makes of a timestamp, the order in
    which the interpreter iterates each set, and whether each report file
    can be written.  A run is a value of a small writer/error monad that
    records, in order, every request sent, every line printed and every
    file written.

    Conventions of the model:
    - a response depends on the request alone, as the listings of a team
      are read before any of its mutations is sent;
    - the [while True] loops are bounded by a [fuel]; reaching the bound is
      the outcome [OutOfFuel];
    - JSON payloads are typed by the shape the provider serves, with the
      undecodable body and the wrong shape as explicit cases, and
      [str.lower] acts on the ASCII letters;
    - the loop of lines 202-203 only builds a set, whose value does not
      depend on the order of the visit; it is written with [elements]. *)

From Stdlib Require Import ZArith Ascii String List Lia.
From stdpp Require Import base decidable option list sets gmap strings pretty.

Local Open Scope string_scope.
Local Open Scope Z_scope.
Local Open Scope list_scope.

(** ** Data model (lines 63-84) *)

Record Account := mkAccount {
  name : string;
  image : string;
  url : string;
  org : bool
}.

(** A [datetime.datetime] value. *)
Record datetime := mkDatetime {
  year : Z;
  month : Z;
  day : Z;
  hour : Z;
  minute : Z;
  second : Z
}.

Record Sponsor := mkSponsor {
  account : Account;
  private : bool;
  created : datetime;
  amount : Z
}.

(** [Account.as_dict]: the four fields under their keys. *)
Record AccountDict := mkAccountDict {
  d_name : string;
  d_image : string;
  d_url : string;
  d_org : bool
}.

Definition as_dict (self : Account) : AccountDict :=
  {| d_name := name self; d_image := image self;
     d_url := url self; d_org := org self |}.

(** ** Configuration (lines 11-23)

    The module-level constants, gathered in one record so that the
    functions below can be read at the repository's values and at any
    other configuration. *)

Record Config := mkConfig {
  MIN_AMOUNT : Z;
  INSIDERS_TEAMS : list (string * string);
  PRIVILEGED_USERS : gset string;
  ORG_USERS : gmap string (gset string)
}.

Definition repository_config : Config :=
  {| MIN_AMOUNT := 4;
     INSIDERS_TEAMS := [("15r10nk-insiders", "insiders")];
     PRIVILEGED_USERS := {["15r10nk"]};
     ORG_USERS := ∅ |}.

(** ** Eligibility (lines 199-203) *)

(** [ORG_USERS.get(eligible_org, set())] *)
Definition org_users_get (cfg : Config) (eligible_org : string) : gset string :=
  default ∅ (ORG_USERS cfg !! eligible_org).

Definition is_eligible_org (cfg : Config) (sponsor : Sponsor) : bool :=
  org (account sponsor) && (amount sponsor >=? MIN_AMOUNT cfg)%Z.

Definition is_eligible_user (cfg : Config) (sponsor : Sponsor) : bool :=
  negb (org (account sponsor)) && (amount sponsor >=? MIN_AMOUNT cfg)%Z.

(** Line 199. *)
Definition eligible_orgs (cfg : Config) (sponsors : list Sponsor) : gset string :=
  list_to_set ((λ sponsor, name (account sponsor)) <$>
                   (filter (λ sponsor, is_eligible_org cfg sponsor = true) sponsors)).

(** Line 200: the set before any [|=]. *)
Definition direct_users (cfg : Config) (sponsors : list Sponsor) : gset string :=
  list_to_set ((λ sponsor, name (account sponsor)) <$>
                   (filter (λ sponsor, is_eligible_user cfg sponsor = true) sponsors)).

(** Lines 202-203, for the organisations visited in the order [orgs]. *)
Definition expand_orgs (cfg : Config) (orgs : list string) (eligible_users : gset string)
  : gset string :=
  foldl (λ acc eligible_org, acc ∪ org_users_get cfg eligible_org) eligible_users orgs.

(** Lines 200-203: the value of [eligible_users] when the team loop starts. *)
Definition eligible_users (cfg : Config) (sponsors : list Sponsor) : gset string :=
  expand_orgs cfg (elements (eligible_orgs cfg sponsors))
              (direct_users cfg sponsors ∪ PRIVILEGED_USERS cfg).

(** ** The provider (lines 25-60, 138-142, 153-157, 164-167, 181-184) *)

(** [sponsorEntity] of a sponsorship node. *)
Record Entity := mkEntity {
  typename : string;
  login : string;
  avatarUrl : string;
  entity_url : string
}.

(** One element of [nodes]; [monthlyPriceInDollars] is the field of [tier]. *)
Record Node := mkNode {
  createdAt : string;
  isOneTimePayment : bool;
  privacyLevel : string;
  sponsorEntity : Entity;
  monthlyPriceInDollars : Z
}.

(** [data.viewer.sponsorshipsAsMaintainer]: the nodes and the [pageInfo]. *)
Record Sponsorships := mkSponsorships {
  nodes : list Node;
  hasNextPage : bool;
  endCursor : string
}.

(** An element of a member or invitation listing; only ["login"] is read. *)
Record User := mkUser { user_login : string }.

(** [response.content]: no bytes, a JSON document of one of the shapes the
    provider serves, or bytes that [response.json()] cannot decode.  The
    fields of a JSON object are kept as the text an f-string renders. *)
Inductive Content :=
  | NoContent
  | JsonObject (fields : gmap string string)
  | JsonUsers (users : list User)
  | JsonSponsorships (data : Sponsorships)
  | NotJson.

Record Response := mkResponse {
  status_code : Z;
  content : Content
}.

Inductive request :=
  | PostGraphql (cursor : string)
  | GetMembers (org team : string) (page : nat)
  | GetInvitations (org team : string)
  | PutMembership (org team user : string)
  | DeleteMembership (org team user : string).

(** What becomes of [with open(file, "w") as f: json.dump(value, f)]: the
    value is written; [open] raises; or the file is opened, hence emptied,
    and the writing raises. *)
Inductive write_outcome :=
  | Written
  | Refused
  | Interrupted.

(** What surrounds one run.
    - [respond]: the provider, each request and its response;
    - [strptime]: [datetime.strptime(text, "%Y-%m-%dT%H:%M:%SZ")], [None]
      where it raises [ValueError];
    - [members_order org team]: the order in which [for user in members]
      visits the membership set of that team (line 208);
    - [eligible_order]: the order in which [for user in eligible_users]
      visits the eligibility set (line 212);
    - [file_write]: what becomes of the writing of a report file.
    Each order is some arrangement of the elements of the set. *)
Record World := mkWorld {
  respond :> request → Response;
  strptime : string → option datetime;
  members_order : string → string → gset string → list string;
  eligible_order : gset string → list string;
  file_write : string → write_outcome;
  members_order_perm : ∀ org team X, members_order org team X ≡ₚ elements X;
  eligible_order_perm : ∀ X, eligible_order X ≡ₚ elements X
}.

(** ** Runs: a trace of effects and an outcome *)

Inductive exn :=
  | HTTPStatusError (status : Z)
  | JSONDecodeError
  | KeyError (key : string)
  | TypeError
  | ValueError
  | OSError.

(** The lines of lines 171, 174, 176, 188, 191 and 193, by their
    interpolated values. *)
Inductive line :=
  | CouldntAdd (user org team : string) (error : exn)
  | CouldntRemove (user org team : string) (error : exn)
  | MessageSee (message documentation_url : string)
  | Added (user org team : string)
  | Removed (user org team : string).

(** What [json.dump] is given at lines 219 and 221. *)
Inductive file_content :=
  | Numbers (total : Z) (count : nat)
  | Roster (accounts : list AccountDict).

(** [Wrote file c]: [file] now holds [c], whole.  [Truncated file]: [file]
    was opened for writing and its content is lost or incomplete. *)
Inductive event :=
  | Sent (r : request)
  | Printed (l : line)
  | Wrote (file : string) (c : file_content)
  | Truncated (file : string).

(** [OutOfFuel]: the loop bound of the model was reached; no Python run
    ends this way. *)
Inductive outcome (A : Type) :=
  | Return (a : A)
  | Raise (e : exn)
  | OutOfFuel.
Arguments Return {A} a.
Arguments Raise {A} e.
Arguments OutOfFuel {A}.

Definition M (A : Type) : Type := list event * outcome A.

Definition ret {A} (a : A) : M A := ([], Return a).

Definition bind {A B} (m : M A) (k : A → M B) : M B :=
  match m with
  | (t, Return a) => let '(t', o) := k a in (t ++ t', o)
  | (t, Raise e) => (t, Raise e)
  | (t, OutOfFuel) => (t, OutOfFuel)
  end.

#[global] Instance M_ret : MRet M := @ret.
#[global] Instance M_bind : MBind M := λ A B k m, bind m k.

Definition raise {A} (e : exn) : M A := ([], Raise e).
Definition out_of_fuel {A} : M A := ([], OutOfFuel).
Definition emit (e : event) : M unit := ([e], Return ()).
Definition print (l : line) : M unit := emit (Printed l).
Definition send (w : World) (r : request) : M Response := ([Sent r], Return (w r)).

(** The two components of a run. *)
Definition trace {A} (m : M A) : list event := m.1.
Definition result {A} (m : M A) : outcome A := m.2.

(** [for x in l: body x] *)
Fixpoint for_each {A} (l : list A) (body : A → M unit) : M unit :=
  match l with
  | [] => mret ()
  | x :: l' => body x;; for_each l' body
  end.

(** [try: m / except httpx.HTTPError as error: handler error / else: orelse];
    an exception of another class passes through. *)
Definition is_HTTPError (e : exn) : bool :=
  match e with HTTPStatusError _ => true | _ => false end.

Definition try_except {A B} (m : M A) (handler : exn → M B) (orelse : A → M B) : M B :=
  match m with
  | (t, Return a) => let '(t', o) := orelse a in (t ++ t', o)
  | (t, Raise e) =>
      if is_HTTPError e then let '(t', o) := handler e in (t ++ t', o)
      else (t, Raise e)
  | (t, OutOfFuel) => (t, OutOfFuel)
  end.

(** ** Reading a response *)

(** [response.raise_for_status()] raises for every status outside 2xx. *)
Definition is_success (response : Response) : bool :=
  (200 <=? status_code response)%Z && (status_code response <? 300)%Z.

Definition raise_for_status (response : Response) : M unit :=
  if is_success response then mret ()
  else raise (HTTPStatusError (status_code response)).

(** [if response.content:] *)
Definition has_content (response : Response) : bool :=
  match content response with NoContent => false | _ => true end.

(** [response.json()] read as a listing: iterating a JSON object yields its
    keys, and subscripting a key with ["login"] is a [TypeError]. *)
Definition json_users (response : Response) : M (list User) :=
  match content response with
  | JsonUsers users => mret users
  | JsonObject fields => if decide (fields = ∅) then mret [] else raise TypeError
  | JsonSponsorships _ => raise TypeError
  | NoContent | NotJson => raise JSONDecodeError
  end.

(** [response.json()["data"]] and the paths below it. *)
Definition json_data (response : Response) : M Sponsorships :=
  match content response with
  | JsonSponsorships data => mret data
  | JsonObject fields =>
      if decide (is_Some (fields !! "data")) then raise TypeError
      else raise (KeyError "data")
  | JsonUsers _ => raise TypeError
  | NoContent | NotJson => raise JSONDecodeError
  end.

(** [response_body = response.json()] followed by the two subscripts of
    lines 174 and 191, left to right. *)
Definition json_message (response : Response) : M (string * string) :=
  match content response with
  | JsonObject fields =>
      match fields !! "message" with
      | Some message =>
          match fields !! "documentation_url" with
          | Some documentation_url => mret (message, documentation_url)
          | None => raise (KeyError "documentation_url")
          end
      | None => raise (KeyError "message")
      end
  | JsonUsers _ => raise TypeError
  | JsonSponsorships _ => raise (KeyError "message")
  | NoContent | NotJson => raise JSONDecodeError
  end.

(** ** get_sponsors (lines 87-131) *)

(** [str.lower] on the ASCII letters. *)
Definition lower_ascii (c : ascii) : ascii :=
  let n := nat_of_ascii c in
  if ((65 <=? n) && (n <=? 90))%nat then ascii_of_nat (n + 32) else c.

Fixpoint lower (s : string) : string :=
  match s with
  | EmptyString => EmptyString
  | String c s' => String (lower_ascii c) (lower s')
  end.

(** Lines 108-123, once the timestamp is parsed. *)
Definition build_sponsor (item : Node) (created : datetime) : Sponsor :=
  let account :=
    {| name := login (sponsorEntity item);
       image := avatarUrl (sponsorEntity item);
       url := entity_url (sponsorEntity item);
       org := bool_decide (lower (typename (sponsorEntity item)) = "organization") |} in
  {| account := account;
     private := bool_decide (lower (privacyLevel item) = "private");
     created := created;
     amount := monthlyPriceInDollars item |}.

(** Lines 108-123: [datetime.strptime] at line 120 raises [ValueError] on
    a timestamp that is not in the format. *)
Definition sponsor_of_item (w : World) (item : Node) : M Sponsor :=
  match strptime w (createdAt item) with
  | Some created => mret (build_sponsor item created)
  | None => raise ValueError
  end.

(** Lines 103-123: the [for item in ...] loop over one page. *)
Fixpoint post_process (w : World) (items : list Node) (sponsors : list Sponsor)
  : M (list Sponsor) :=
  match items with
  | [] => mret sponsors
  | item :: items' =>
      if isOneTimePayment item then post_process w items' sponsors
      else sponsor ← sponsor_of_item w item;
           post_process w items' (sponsors ++ [sponsor])
  end.

Definition dquote : string := String "034"%char EmptyString.

(** Line 127: the end cursor between double quotes. *)
Definition quoted (s : string) : string := dquote +:+ s +:+ dquote.

(** Lines 91-129: the [while True] loop, at most [fuel] pages. *)
Fixpoint get_sponsors_loop (w : World) (fuel : nat) (cursor : string)
    (sponsors : list Sponsor) : M (list Sponsor) :=
  match fuel with
  | O => out_of_fuel
  | S fuel' =>
      response ← send w (PostGraphql cursor);
      raise_for_status response;;
      data ← json_data response;
      sponsors ← post_process w (nodes data) sponsors;
      if hasNextPage data
      then get_sponsors_loop w fuel' (quoted (endCursor data)) sponsors
      else mret sponsors
  end.

Definition get_sponsors (w : World) (fuel : nat) : M (list Sponsor) :=
  get_sponsors_loop w fuel "null" [].

(** ** get_members and get_invited (lines 134-159) *)

(** [{user["login"] for user in users}] *)
Definition logins (users : list User) : gset string :=
  list_to_set (user_login <$> users).

(** Lines 137-149.  [members] is accumulated at line 145; the value
    returned at line 149 is read from [response], the last one received. *)
Fixpoint get_members_loop (w : World) (fuel : nat) (org team : string) (page : nat)
    (members : gset string) : M (gset string) :=
  match fuel with
  | O => out_of_fuel
  | S fuel' =>
      response ← send w (GetMembers org team page);
      raise_for_status response;;
      response_data ← json_users response;
      let members := members ∪ logins response_data in
      if (length response_data <? 100)%nat
      then users ← json_users response; mret (logins users)
      else get_members_loop w fuel' org team (page + 1)%nat members
  end.

Definition get_members (w : World) (fuel : nat) (org team : string) : M (gset string) :=
  get_members_loop w fuel org team 1%nat ∅.

Definition get_invited (w : World) (org team : string) : M (gset string) :=
  response ← send w (GetInvitations org team);
  raise_for_status response;;
  users ← json_users response;
  mret (logins users).

(** ** grant and revoke (lines 162-193) *)

Definition grant (w : World) (user org team : string) : M unit :=
  response ← send w (PutMembership org team user);
  try_except (raise_for_status response)
    (λ error,
       print (CouldntAdd user org team error);;
       if has_content response then
         '(message, documentation_url) ← json_message response;
         print (MessageSee message documentation_url)
       else mret ())
    (λ _, print (Added user org team)).

Definition revoke (w : World) (user org team : string) : M unit :=
  response ← send w (DeleteMembership org team user);
  try_except (raise_for_status response)
    (λ error,
       print (CouldntRemove user org team error);;
       if has_content response then
         '(message, documentation_url) ← json_message response;
         print (MessageSee message documentation_url)
       else mret ())
    (λ _, print (Removed user org team)).

(** ** main (lines 196-221) *)

(** Lines 208-210. *)
Definition revoke_accesses (w : World) (org team : string)
    (members eligible_users : gset string) : M unit :=
  for_each (members_order w org team members)
    (λ user, if decide (user ∉ eligible_users) then revoke w user org team else mret ()).

(** Lines 212-214. *)
Definition grant_accesses (w : World) (org team : string)
    (members eligible_users : gset string) : M unit :=
  for_each (eligible_order w eligible_users)
    (λ user, if decide (user ∉ members) then grant w user org team else mret ()).

(** Lines 206-214: the body of the loop over [INSIDERS_TEAMS]. *)
Definition reconcile_team (w : World) (fuel : nat) (eligible_users : gset string)
    (target : string * string) : M unit :=
  let '(org, team) := target in
  confirmed ← get_members w fuel org team;
  invited ← get_invited w org team;
  let members := confirmed ∪ invited in
  revoke_accesses w org team members eligible_users;;
  grant_accesses w org team members eligible_users.

(** [sum(sponsor.amount for sponsor in sponsors)] *)
Definition total_amount (sponsors : list Sponsor) : Z :=
  foldl (λ acc sponsor, acc + amount sponsor) 0 sponsors.

(** Line 221: the list comprehension. *)
Definition public_roster (sponsors : list Sponsor) : list AccountDict :=
  (λ sponsor, as_dict (account sponsor)) <$>
    filter (λ sponsor, private sponsor = false) sponsors.

(** [with open(file, "w") as f: json.dump(value, f)] *)
Definition write_json (w : World) (file : string) (value : file_content) : M unit :=
  match file_write w file with
  | Written => emit (Wrote file value)
  | Refused => raise OSError
  | Interrupted => emit (Truncated file);; raise OSError
  end.

(** Lines 216-221. *)
Definition write_reports (w : World) (sponsors : list Sponsor) : M unit :=
  let total := total_amount sponsors in
  let count := length sponsors in
  write_json w "numbers.json" (Numbers total count);;
  write_json w "sponsors.json" (Roster (public_roster sponsors)).

Definition main (cfg : Config) (w : World) (fuel : nat) : M unit :=
  sponsors ← get_sponsors w fuel;
  let eligible_users := eligible_users cfg sponsors in
  for_each (INSIDERS_TEAMS cfg) (reconcile_team w fuel eligible_users);;
  write_reports w sponsors.

(** ** The provider without its one-time payments *)

(** The items of a page that are not flagged [isOneTimePayment]. *)
Definition recurring (items : list Node) : list Node :=
  filter (λ item, isOneTimePayment item = false) items.

Definition drop_one_time (response : Response) : Response :=
  match content response with
  | JsonSponsorships data =>
      {| status_code := status_code response;
         content := JsonSponsorships
                      {| nodes := recurring (nodes data);
                         hasNextPage := hasNextPage data;
                         endCursor := endCursor data |} |}
  | _ => response
  end.

(** The same provider, every one-time record removed from every page of
    the sponsorship query. *)
Definition without_one_time (w : World) : World :=
  {| respond := λ r, match r with
                     | PostGraphql _ => drop_one_time (w r)
                     | _ => w r
                     end;
     strptime := strptime w;
     members_order := members_order w;
     eligible_order := eligible_order w;
     file_write := file_write w;
     members_order_perm := members_order_perm w;
     eligible_order_perm := eligible_order_perm w |}.

(** ** What a trace shows *)

(** The handles of the [PUT .../memberships/{user}] requests, in order. *)
Definition grant_calls (t : list event) : list (string * string * string) :=
  omap (λ e, match e with
             | Sent (PutMembership org team user) => Some (org, team, user)
             | _ => None
             end) t.

(** The handles of the [DELETE .../memberships/{user}] requests, in order. *)
Definition revoke_calls (t : list event) : list (string * string * string) :=
  omap (λ e, match e with
             | Sent (DeleteMembership org team user) => Some (org, team, user)
             | _ => None
             end) t.

(** The handles granted, and the handles revoked, as sets. *)
Definition granted (t : list event) : gset string :=
  list_to_set ((λ call, call.2) <$> grant_calls t).

Definition revoked (t : list event) : gset string :=
  list_to_set ((λ call, call.2) <$> revoke_calls t).

Definition is_mutation (e : event) : Prop :=
  match e with
  | Sent (PutMembership _ _ _) | Sent (DeleteMembership _ _ _) => True
  | _ => False
  end.

Definition is_write (e : event) : Prop :=
  match e with Wrote _ _ | Truncated _ => True | _ => False end.

(** ** Definitions that follow the specification's words *)

(** Section 3, Eligibility Set: the union of the individual accounts at or
    above the threshold, the privileged handles, and the expansion of every
    organisation account at or above the threshold. *)
Definition in_eligibility_spec (cfg : Config) (sponsors : list Sponsor) (h : string) : Prop :=
  (∃ s, s ∈ sponsors ∧ org (account s) = false ∧ MIN_AMOUNT cfg ≤ amount s
        ∧ name (account s) = h)
  ∨ h ∈ PRIVILEGED_USERS cfg
  ∨ (∃ s, s ∈ sponsors ∧ org (account s) = true ∧ MIN_AMOUNT cfg ≤ amount s
          ∧ h ∈ default ∅ (ORG_USERS cfg !! name (account s))).

(** Section 4.5, Auditing. *)
Definition toRevoke (currentMembers eligibility : gset string) : gset string :=
  currentMembers ∖ eligibility.

Definition toGrant (currentMembers eligibility : gset string) : gset string :=
  eligibility ∖ currentMembers.

(** Section 4.5, Applying: the handles the two loops of lines 208-214 call
    [revoke] and [grant] for, in iteration order. *)
Definition revoke_list (w : World) (org team : string) (members eligible : gset string)
  : list string :=
  filter (λ user, user ∉ eligible) (members_order w org team members).

Definition grant_list (w : World) (members eligible : gset string) : list string :=
  filter (λ user, user ∉ members) (eligible_order w eligible).

(** A response of a membership mutation as the provider documents it: a
    success, or a failure whose body is empty or a JSON object with the
    keys ["message"] and ["documentation_url"]. *)
Definition provider_error_body (response : Response) : Prop :=
  is_success response = true
  ∨ content response = NoContent
  ∨ ∃ fields message documentation_url,
      content response = JsonObject fields
      ∧ fields !! "message" = Some message
      ∧ fields !! "documentation_url" = Some documentation_url.

(** The handles of the member pages a trace shows as fetched, as one set:
    "fetch-all confirmed member handles, page by page, union into a set"
    (Section 4.3). *)
Definition members_fetched (w : World) (t : list event) : gset string :=
  ⋃ (omap (λ e, match e with
                | Sent (GetMembers org team page) =>
                    match content (w (GetMembers org team page)) with
                    | JsonUsers users => Some (logins users)
                    | _ => None
                    end
                | _ => None
                end) t).

(** Section 8, threshold property, as worded: for every sponsor, the amount
    is at least the threshold iff the handle is directly eligible. *)
Definition threshold_property (cfg : Config) (sponsors : list Sponsor) : Prop :=
  ∀ s, s ∈ sponsors →
       (MIN_AMOUNT cfg ≤ amount s ↔ name (account s) ∈ direct_users cfg sponsors).

(** ** Auxiliary readings of the code *)

(** Lines 172-174 and 189-191, the same text in both functions. *)
Definition body_report (response : Response) : M unit :=
  if has_content response then
    '(message, documentation_url) ← json_message response;
    print (MessageSee message documentation_url)
  else mret ().

(** What lines 216-221 write when both files can be written. *)
Definition reports (sponsors : list Sponsor) : list event :=
  [Wrote "numbers.json" (Numbers (total_amount sponsors) (length sponsors));
   Wrote "sponsors.json" (Roster (public_roster sponsors))].

Definition reports_writable (w : World) : Prop :=
  file_write w "numbers.json" = Written ∧ file_write w "sponsors.json" = Written.

(** Section 6, output artifacts, in the specification's words: the total
    sponsorship amount over all sponsors, and one roster entry per
    non-private sponsor with handle, avatar, profile URI and org flag. *)
Fixpoint sum_amounts (sponsors : list Sponsor) : Z :=
  match sponsors with
  | [] => 0
  | sponsor :: sponsors' => amount sponsor + sum_amounts sponsors'
  end.

Definition roster_entry (sponsor : Sponsor) : AccountDict :=
  {| d_name := name (account sponsor);
     d_image := image (account sponsor);
     d_url := url (account sponsor);
     d_org := org (account sponsor) |}.

(** ** Worlds for the examples *)

Definition digit (c : ascii) : option Z :=
  let n := nat_of_ascii c in
  if ((48 <=? n) && (n <=? 57))%nat then Some (Z.of_nat (n - 48)) else None.

Definition number (cs : list ascii) : option Z :=
  foldl (λ acc c, match acc, digit c with
                  | Some a, Some d => Some (10 * a + d)
                  | _, _ => None
                  end) (Some 0) cs.

Definition leap (y : Z) : bool :=
  ((y mod 4 =? 0) && negb (y mod 100 =? 0)) || (y mod 400 =? 0).

Definition days_in_month (y m : Z) : Z :=
  if m =? 2 then (if leap y then 29 else 28)
  else if (m =? 4) || (m =? 6) || (m =? 9) || (m =? 11) then 30
  else 31.

(** A parser for the form in which the provider writes [createdAt]:
    [YYYY-MM-DDTHH:MM:SSZ] with every field at its full width, naming a
    date of the calendar.  Every text it accepts is one that
    [strptime] accepts under the format of line 120. *)
Definition parse_timestamp (s : string) : option datetime :=
  match list_ascii_of_string s with
  | [y1; y2; y3; y4; s1; m1; m2; s2; d1; d2; t; h1; h2; s3; n1; n2; s4; c1; c2; z] =>
      if bool_decide ([s1; s2; t; s3; s4; z] = list_ascii_of_string "--T::Z") then
        match number [y1; y2; y3; y4], number [m1; m2], number [d1; d2],
              number [h1; h2], number [n1; n2], number [c1; c2] with
        | Some y, Some m, Some d, Some h, Some n, Some c =>
            if bool_decide (1 ≤ y ∧ 1 ≤ m ≤ 12 ∧ 1 ≤ d ≤ days_in_month y m
                            ∧ h ≤ 23 ∧ n ≤ 59 ∧ c ≤ 59)
            then Some (mkDatetime y m d h n c) else None
        | _, _, _, _, _, _ => None
        end
      else None
  | _ => None
  end.

(** The world around a provider [f]: timestamps parsed by
    [parse_timestamp], sets visited in the order of [elements], both
    report files writable. *)
Definition serving (f : request → Response) : World :=
  {| respond := f;
     strptime := parse_timestamp;
     members_order := λ _ _, elements;
     eligible_order := elements;
     file_write := λ _, Written;
     members_order_perm := λ _ _ X, Permutation_refl (elements X);
     eligible_order_perm := λ X, Permutation_refl (elements X) |}.

(** The same world with sets visited in the reverse order. *)
Definition reversed (w : World) : World :=
  {| respond := respond w;
     strptime := strptime w;
     members_order := λ org team X, reverse (members_order w org team X);
     eligible_order := λ X, reverse (eligible_order w X);
     file_write := file_write w;
     members_order_perm := λ org team X,
       Permutation_trans (reverse_Permutation (members_order w org team X))
                         (members_order_perm w org team X);
     eligible_order_perm := λ X,
       Permutation_trans (reverse_Permutation (eligible_order w X))
                         (eligible_order_perm w X) |}.

(** The same world with another fate for the report files. *)
Definition with_files (w : World) (files : string → write_outcome) : World :=
  {| respond := respond w;
     strptime := strptime w;
     members_order := members_order w;
     eligible_order := eligible_order w;
     file_write := files;
     members_order_perm := members_order_perm w;
     eligible_order_perm := eligible_order_perm w |}.

(** The sponsor that [parse_timestamp] makes of an item. *)
Definition recorded (item : Node) : Sponsor :=
  build_sponsor item (default (mkDatetime 1970 1 1 0 0 0) (parse_timestamp (createdAt item))).

(** A provider that serves the sponsorships on a single page, the member
    listing in the given pages (an empty page past the last one), one
    invitation listing, and answers each mutation by handle. *)
Definition provider (items : list Node) (pages : list (list User)) (invitations : list User)
    (put delete : string → Response) : World :=
  serving (λ r, match r with
       | PostGraphql _ =>
           mkResponse 200 (JsonSponsorships
             {| nodes := items; hasNextPage := false; endCursor := "" |})
       | GetMembers _ _ O => mkResponse 200 (JsonUsers [])
       | GetMembers _ _ (S p) => mkResponse 200 (JsonUsers (default [] (pages !! p)))
       | GetInvitations _ _ => mkResponse 200 (JsonUsers invitations)
       | PutMembership _ _ user => put user
       | DeleteMembership _ _ user => delete user
       end).

Definition accepted (user : string) : Response := mkResponse 200 (JsonObject ∅).
Definition removed (user : string) : Response := mkResponse 204 NoContent.

(** The end-to-end scenario of Section 8 and variations of it. *)
Module Scenario.
Definition org := "15r10nk-insiders".
Definition team := "insiders".

Definition cfg : Config :=
  {| MIN_AMOUNT := 4;
     INSIDERS_TEAMS := [(org, team)];
     PRIVILEGED_USERS := {["zed"]};
     ORG_USERS := {["acme" := {["bob"]}]} |}.

Definition entity (kind handle : string) : Entity :=
  mkEntity kind handle ("https://avatars.example/" +:+ handle)
           ("https://github.com/" +:+ handle).

Definition alice : Node :=
  mkNode "2024-03-01T09:30:00Z" false "PUBLIC" (entity "User" "alice") 10.
Definition acme : Node :=
  mkNode "2024-02-11T17:05:00Z" false "PUBLIC" (entity "Organization" "acme") 5.
Definition dana : Node :=
  mkNode "2023-12-24T08:00:00Z" false "PRIVATE" (entity "User" "dana") 7.
Definition oscar : Node :=
  mkNode "2024-04-02T12:00:00Z" true "PUBLIC" (entity "User" "oscar") 100.

Definition sponsors : list Sponsor := [recorded alice; recorded acme].

Definition current : list User := [mkUser "zed"; mkUser "carol"].

(** Current membership [{zed, carol}], every mutation succeeds. *)
Definition world : World := provider [alice; acme] [current] [] accepted removed.

(** Membership already equal to the eligibility set. *)
Definition settled : World :=
  provider [alice; acme] [[mkUser "zed"; mkUser "alice"; mkUser "bob"]] []
           accepted removed.

(** The grant of alice is refused with the provider's error object. *)
Definition not_found : Response :=
  mkResponse 404 (JsonObject {[ "message" := "Not Found";
                                "documentation_url" := "https://docs.github.com/rest" ]}).
Definition rejecting : World :=
  provider [alice; acme] [current] []
           (λ user, if decide (user = "alice") then not_found else accepted user)
           removed.

(** The grant of alice fails with a body that is not JSON. *)
Definition bad_gateway : Response := mkResponse 502 NotJson.
Definition flaky : World :=
  provider [alice; acme] [current] []
           (λ user, if decide (user = "alice") then bad_gateway else accepted user)
           removed.

(** Every grant is answered by a gateway error whose body is not JSON. *)
Definition outage : World :=
  provider [alice; acme] [current] [] (λ _, bad_gateway) removed.

(** A private sponsor and a one-time payment among the records. *)
Definition with_private : World :=
  provider [alice; dana; acme] [current] [] accepted removed.
Definition with_one_time : World :=
  provider [alice; oscar; acme] [current] [] accepted removed.

(** Two records of the same handle, one below the threshold. *)
Definition alice_before : Node :=
  mkNode "2022-01-01T00:00:00Z" false "PUBLIC" (entity "User" "alice") 2.
Definition two_tiers : list Sponsor := [recorded alice_before; recorded alice].
End Scenario.

(** A team of 101 confirmed members, served as a full page and a short one;
    the first member sponsors at 10. *)
Module Paged.
Definition org := "15r10nk-insiders".
Definition team := "insiders".
Definition handle (i : nat) : string := "user" +:+ pretty i.
Definition first_page : list User := (λ i, mkUser (handle i)) <$> seq 0 100.
Definition second_page : list User := [mkUser (handle 100)].
Definition sponsor : Node :=
  mkNode "2024-05-01T10:00:00Z" false "PUBLIC" (Scenario.entity "User" (handle 0)) 10.
Definition world : World :=
  provider [sponsor] [first_page; second_page] [] accepted removed.
End Paged.

(** A team settled at exactly one hundred members under the repository's
    configuration: 99 sponsors at 10 and the privileged handle, all of them
    confirmed members, served as one full page followed by an empty one. *)
Module Settled.
Definition org := "15r10nk-insiders".
Definition team := "insiders".
Definition items : list Node :=
  (λ i, mkNode "2024-05-01T10:00:00Z" false "PUBLIC"
               (Scenario.entity "User" (Paged.handle i)) 10) <$> seq 0 99.
Definition sponsors : list Sponsor := recorded <$> items.
Definition listing : list User :=
  ((λ i, mkUser (Paged.handle i)) <$> seq 0 99) ++ [mkUser "15r10nk"].
Definition world : World := provider items [listing] [] accepted removed.
End Settled.

(** ** Paging *)

(** The cursor text of the request for page [i] of the sponsorship query
    (lines 90 and 127): [c0] for the first page, then the end cursor of
    the page before, between double quotes. *)
Definition cursor_at (c0 : string) (pages : nat → Sponsorships) (i : nat) : string :=
  match i with
  | O => c0
  | S j => quoted (endCursor (pages j))
  end.

(** A configuration with another threshold. *)
Definition with_min_amount (cfg : Config) (min_amount : Z) : Config :=
  {| MIN_AMOUNT := min_amount;
     INSIDERS_TEAMS := INSIDERS_TEAMS cfg;
     PRIVILEGED_USERS := PRIVILEGED_USERS cfg;
     ORG_USERS := ORG_USERS cfg |}.

Definition is_query (e : event) : Prop :=
  match e with Sent (PostGraphql _) => True | _ => False end.

(** The team a membership request addresses. *)
Definition target_of (e : event) : option (string * string) :=
  match e with
  | Sent (GetMembers org team _) | Sent (GetInvitations org team)
  | Sent (PutMembership org team _) | Sent (DeleteMembership org team _) => Some (org, team)
  | _ => None
  end.

Definition is_grant (e : event) : Prop :=
  match e with Sent (PutMembership _ _ _) => True | _ => False end.

Definition is_revoke (e : event) : Prop :=
  match e with Sent (DeleteMembership _ _ _) => True | _ => False end.

(** Providers for the examples on paging and on failing fetches. *)
Module Fetching.
Definition first : Sponsorships :=
  {| nodes := [Scenario.alice; Scenario.oscar];
     hasNextPage := true; endCursor := "Y3Vyc29yOjE=" |}.
Definition second : Sponsorships :=
  {| nodes := [Scenario.acme]; hasNextPage := false; endCursor := "Y3Vyc29yOjI=" |}.
Definition pages (i : nat) : Sponsorships :=
  match i with O => first | _ => second end.

(** Two sponsorship pages linked by a cursor; any other cursor is refused. *)
Definition cursored : World :=
  serving (λ r, match r with
                | PostGraphql cursor =>
                    if decide (cursor = "null") then mkResponse 200 (JsonSponsorships first)
                    else if decide (cursor = quoted "Y3Vyc29yOjE=")
                         then mkResponse 200 (JsonSponsorships second)
                         else mkResponse 400 NoContent
                | _ => Scenario.world r
                end).

(** Every sponsorship page announces a next one; every member page is full. *)
Definition endless : World :=
  serving (λ r, match r with
                | PostGraphql _ => mkResponse 200 (JsonSponsorships first)
                | GetMembers _ _ _ => mkResponse 200 (JsonUsers Paged.first_page)
                | _ => Scenario.world r
                end).

Definition unauthorized : Response :=
  mkResponse 401 (JsonObject {[ "message" := "Bad credentials";
                                "documentation_url" := "https://docs.github.com/rest" ]}).

(** The sponsorship query is refused. *)
Definition no_sponsors_access : World :=
  serving (λ r, match r with PostGraphql _ => unauthorized | _ => Scenario.world r end).

(** The member listing is refused; the invitation listing is refused. *)
Definition no_members_access : World :=
  serving (λ r, match r with GetMembers _ _ _ => unauthorized | _ => Scenario.world r end).
Definition no_invitations_access : World :=
  serving (λ r, match r with GetInvitations _ _ => unauthorized | _ => Scenario.world r end).

(** A team of exactly one hundred members: the second page is empty. *)
Definition hundred : World :=
  provider [Paged.sponsor] [Paged.first_page] [] accepted removed.

(** A sponsorship whose timestamp has a blank instead of the [T] and no
    zone letter. *)
Definition no_zone : Node :=
  mkNode "2024-03-01 09:30:00" false "PUBLIC" (Scenario.entity "User" "alice") 10.
Definition undated : World :=
  provider [Scenario.acme; no_zone] [Scenario.current] [] accepted removed.

(** The scenario when [sponsors.json] cannot be opened for writing. *)
Definition roster_refused : World :=
  with_files Scenario.world
    (λ file, if decide (file = "sponsors.json") then Refused else Written).

(** Failing grants whose error object lacks a key. *)
Definition no_message : Response :=
  mkResponse 422 (JsonObject {[ "documentation_url" := "https://docs.github.com/rest" ]}).
Definition no_link : Response :=
  mkResponse 422 (JsonObject {[ "message" := "Validation Failed" ]}).
Definition terse (response : Response) : World :=
  provider [Scenario.alice; Scenario.acme] [Scenario.current] []
           (λ _, response) (λ _, response).
End Fetching.

(** * Eligibility *)

Section eligibility.
Context (cfg : Config).
Implicit Types (sponsors : list Sponsor) (h : string).

Lemma is_eligible_user_spec (s : Sponsor) :
  is_eligible_user cfg s = true ↔ org (account s) = false ∧ MIN_AMOUNT cfg ≤ amount s.
Proof.
  unfold is_eligible_user. rewrite andb_true_iff, negb_true_iff, Z.geb_le. tauto.
Qed.

Lemma is_eligible_org_spec (s : Sponsor) :
  is_eligible_org cfg s = true ↔ org (account s) = true ∧ MIN_AMOUNT cfg ≤ amount s.
Proof.
  unfold is_eligible_org. rewrite andb_true_iff, Z.geb_le. tauto.
Qed.

Lemma elem_of_direct_users sponsors h :
  h ∈ direct_users cfg sponsors ↔
  ∃ s, s ∈ sponsors ∧ org (account s) = false ∧ MIN_AMOUNT cfg ≤ amount s
       ∧ name (account s) = h.
Proof.
  unfold direct_users. rewrite elem_of_list_to_set, list_elem_of_fmap. split.
  - intros (s & -> & Hs). apply list_elem_of_filter in Hs as [He Hin].
    apply is_eligible_user_spec in He as [? ?]. by exists s.
  - intros (s & Hin & Ho & Ha & <-). exists s. split; [done|].
    apply list_elem_of_filter. split; [|done]. by apply is_eligible_user_spec.
Qed.

Lemma elem_of_eligible_orgs sponsors h :
  h ∈ eligible_orgs cfg sponsors ↔
  ∃ s, s ∈ sponsors ∧ org (account s) = true ∧ MIN_AMOUNT cfg ≤ amount s
       ∧ name (account s) = h.
Proof.
  unfold eligible_orgs. rewrite elem_of_list_to_set, list_elem_of_fmap. split.
  - intros (s & -> & Hs). apply list_elem_of_filter in Hs as [He Hin].
    apply is_eligible_org_spec in He as [? ?]. by exists s.
  - intros (s & Hin & Ho & Ha & <-). exists s. split; [done|].
    apply list_elem_of_filter. split; [|done]. by apply is_eligible_org_spec.
Qed.

(** The loop of lines 202-203 adds exactly the expansions of the
    organisations it visits. *)
Lemma elem_of_expand_orgs (orgs : list string) (acc : gset string) h :
  h ∈ expand_orgs cfg orgs acc ↔
  h ∈ acc ∨ ∃ o, o ∈ orgs ∧ h ∈ org_users_get cfg o.
Proof.
  unfold expand_orgs. revert acc. induction orgs as [|o orgs IH]; intros acc; simpl.
  - split; [auto|]. intros [?|(o & Ho & _)]; [done|]. by apply elem_of_nil in Ho.
  - rewrite IH, elem_of_union. split.
    + intros [[?|?]|(o' & Ho' & ?)]; [by left| |].
      * right. exists o. split; [left|done].
      * right. exists o'. split; [by right|done].
    + intros [?|(o' & Ho' & ?)]; [by left; left|].
      apply elem_of_cons in Ho' as [->|Ho']; [by left; right|].
      right. by exists o'.
Qed.

Lemma elem_of_eligible_users sponsors h :
  h ∈ eligible_users cfg sponsors ↔ in_eligibility_spec cfg sponsors h.
Proof.
  unfold eligible_users, in_eligibility_spec.
  rewrite elem_of_expand_orgs, elem_of_union, elem_of_direct_users.
  split.
  - intros [[?|?]|(o & Ho & Hh)]; [by left|by right; left|].
    apply elem_of_elements, elem_of_eligible_orgs in Ho as (s & ? & ? & ? & <-).
    right; right. by exists s.
  - intros [?|[?|(s & ? & ? & ? & Hh)]]; [by left; left|by left; right|].
    right. exists (name (account s)). split; [|done].
    apply elem_of_elements, elem_of_eligible_orgs. by exists s.
Qed.

Lemma privileged_eligible sponsors h :
  h ∈ PRIVILEGED_USERS cfg → h ∈ eligible_users cfg sponsors.
Proof. intros ?. apply elem_of_eligible_users. right. by left. Qed.

(** C3.  The set [eligible_users] that [main] reconciles against is the
    union the specification describes: the individual sponsors at or
    above [MIN_AMOUNT], the privileged handles and the expansions of the
    organisation sponsors at or above [MIN_AMOUNT], an organisation
    absent from [ORG_USERS] adding nothing; and visiting the eligible
    organisations in any other order, with or without repetitions,
    yields the same set. *)
Theorem eligible_users_is_union sponsors :
  (∀ h, h ∈ eligible_users cfg sponsors ↔ in_eligibility_spec cfg sponsors h)
  ∧ eligible_users cfg sponsors =
      direct_users cfg sponsors ∪ PRIVILEGED_USERS cfg
      ∪ ⋃ (org_users_get cfg <$> elements (eligible_orgs cfg sponsors))
  ∧ ∀ orgs : list string,
      (∀ o, o ∈ orgs ↔ o ∈ eligible_orgs cfg sponsors) →
      expand_orgs cfg orgs (PRIVILEGED_USERS cfg ∪ direct_users cfg sponsors)
      = eligible_users cfg sponsors.
Proof.
  split; [apply elem_of_eligible_users|]. split.
  - apply set_eq. intros h. unfold eligible_users.
    rewrite elem_of_expand_orgs, !elem_of_union, elem_of_union_list.
    split.
    + intros [?|(o & Ho & Hh)]; [by left|]. right.
      exists (org_users_get cfg o). split; [|done]. by apply list_elem_of_fmap_2.
    + intros [?|(X & HX & Hh)]; [by left|]. right.
      apply list_elem_of_fmap in HX as (o & -> & Ho). by exists o.
  - intros orgs Horgs. apply set_eq. intros h. unfold eligible_users.
    rewrite !elem_of_expand_orgs, !elem_of_union.
    split; (intros [[?|?]|(o & Ho & Hh)]; [tauto|tauto|]); right; exists o;
      (split; [|done]).
    + by apply elem_of_elements, Horgs.
    + by apply Horgs, elem_of_elements.
Qed.

(** C6, as amended.  A handle is in the part of the eligibility set that
    comes from direct sponsorship exactly when some sponsor record of an
    individual (non-organisation) account with that handle has an amount
    of at least [MIN_AMOUNT]: every individual sponsor at or above the
    threshold is directly eligible, and a handle none of whose records
    meets the threshold is not. *)
Theorem direct_eligibility_threshold sponsors :
  (∀ h, h ∈ direct_users cfg sponsors ↔
        ∃ s, s ∈ sponsors ∧ org (account s) = false
             ∧ MIN_AMOUNT cfg ≤ amount s ∧ name (account s) = h)
  ∧ (∀ s, s ∈ sponsors → org (account s) = false → MIN_AMOUNT cfg ≤ amount s →
          name (account s) ∈ direct_users cfg sponsors)
  ∧ (∀ h, (∀ s, s ∈ sponsors → name (account s) = h → amount s < MIN_AMOUNT cfg) →
          h ∉ direct_users cfg sponsors).
Proof.
  split; [apply elem_of_direct_users|]. split.
  - intros s ? ? ?. apply elem_of_direct_users. by exists s.
  - intros h Hall Hin. apply elem_of_direct_users in Hin as (s & Hs & _ & Ha & Hn).
    specialize (Hall s Hs Hn). lia.
Qed.
End eligibility.

(** * Runs *)

Lemma trace_pair {A} (t : list event) (o : outcome A) : trace (t, o) = t.
Proof. done. Qed.

Lemma result_pair {A} (t : list event) (o : outcome A) : result (t, o) = o.
Proof. done. Qed.

Section runs.
Context {A B : Type}.
Implicit Types (m : M A) (k : A → M B) (P : event → Prop).

Lemma bind_Return m k t a :
  m = (t, Return a) → m ≫= k = (t ++ trace (k a), result (k a)).
Proof. intros ->. unfold mbind, M_bind, bind. by destruct (k a). Qed.

Lemma bind_Return' m k t a t' o :
  m = (t, Return a) → k a = (t', o) → m ≫= k = (t ++ t', o).
Proof. intros -> Hk. unfold mbind, M_bind, bind. by rewrite Hk. Qed.

Lemma bind_Raise m k t e : m = (t, Raise e) → m ≫= k = (t, Raise e).
Proof. by intros ->. Qed.

Lemma bind_OutOfFuel m k t : m = (t, OutOfFuel) → m ≫= k = (t, OutOfFuel).
Proof. by intros ->. Qed.

(** A run of [m ≫= k] that returns is a run of [m] that returns, followed
    by a run of [k]. *)
Lemma bind_Return_inv m k t b :
  m ≫= k = (t, Return b) →
  ∃ t1 a t2, m = (t1, Return a) ∧ k a = (t2, Return b) ∧ t = t1 ++ t2.
Proof.
  destruct m as [t1 [a| |]]; unfold mbind, M_bind, bind; [|done..].
  destruct (k a) as [t2 o] eqn:Hk. intros [= <- ->]. by exists t1, a, t2.
Qed.

Lemma trace_bind P m k :
  Forall P (trace m) → (∀ a, Forall P (trace (k a))) → Forall P (trace (m ≫= k)).
Proof.
  intros Hm Hk. destruct m as [t [a| |]]; unfold mbind, M_bind, bind; [|done..].
  specialize (Hk a). destruct (k a). apply Forall_app. by split.
Qed.

Lemma trace_try_except P m (handler : exn → M B) (orelse : A → M B) :
  Forall P (trace m) → (∀ e, Forall P (trace (handler e))) →
  (∀ a, Forall P (trace (orelse a))) →
  Forall P (trace (try_except m handler orelse)).
Proof.
  intros Hm Hh Ho. destruct m as [t [a|e|]]; unfold try_except; [| |done].
  - specialize (Ho a). destruct (orelse a). apply Forall_app. by split.
  - destruct (is_HTTPError e); [|done].
    specialize (Hh e). destruct (handler e). apply Forall_app. by split.
Qed.
End runs.

Lemma for_each_cons {A} (x : A) (l : list A) (body : A → M unit) :
  for_each (x :: l) body = body x ≫= λ _, for_each l body.
Proof. done. Qed.

Lemma bind_ext {A B} (m : M A) (k1 k2 : A → M B) :
  (∀ a, k1 a = k2 a) → m ≫= k1 = m ≫= k2.
Proof.
  intros Hk. destruct m as [t [a| |]]; [|done..].
  unfold mbind, M_bind, bind. by rewrite Hk.
Qed.

Lemma for_each_ext {A} (l : list A) (f g : A → M unit) :
  (∀ x, f x = g x) → for_each l f = for_each l g.
Proof.
  intros Hfg. induction l as [|x l IH]; [done|].
  rewrite !for_each_cons, Hfg. apply bind_ext. by intros _.
Qed.

Lemma trace_for_each {A} (P : event → Prop) (l : list A) (body : A → M unit) :
  (∀ x, x ∈ l → Forall P (trace (body x))) → Forall P (trace (for_each l body)).
Proof.
  induction l as [|x l IH]; intros Hb; simpl; [constructor|].
  apply trace_bind; [apply Hb; left|]. intros _. apply IH. intros y ?. apply Hb. by right.
Qed.

Lemma mret_bind {A B} (a : A) (k : A → M B) : mret a ≫= k = k a.
Proof. unfold mbind, M_bind, mret, M_ret, bind, ret. by destruct (k a). Qed.

(** The [if] inside a loop selects the elements the call is made for. *)
Lemma for_each_filter {A} (P : A → Prop) `{!∀ x, Decision (P x)}
    (l : list A) (f : A → M unit) :
  for_each l (λ x, if decide (P x) then f x else mret ()) = for_each (filter P l) f.
Proof.
  induction l as [|x l IH]; [done|]. rewrite for_each_cons, IH.
  destruct (decide (P x)) as [HP|HP].
  - by rewrite filter_cons_True.
  - by rewrite filter_cons_False, mret_bind.
Qed.

(** A loop all of whose iterations return runs them all. *)
Lemma for_each_Return {A} (l : list A) (body : A → M unit) :
  (∀ x, x ∈ l → result (body x) = Return ()) →
  for_each l body = (concat ((λ x, trace (body x)) <$> l), Return ()).
Proof.
  induction l as [|x l IH]; intros Hb; [done|]. rewrite for_each_cons, fmap_cons.
  assert (body x = (trace (body x), Return ())) as Hx.
  { specialize (Hb x ltac:(left)). destruct (body x) as [t o]. simpl in *. by subst. }
  rewrite (bind_Return (body x) _ _ _ Hx), IH; [done|]. intros y ?. apply Hb. by right.
Qed.

(** A loop stops at its first iteration that raises. *)
Lemma for_each_Raise {A} (l1 l2 : list A) (x : A) (body : A → M unit) (e : exn) :
  (∀ y, y ∈ l1 → result (body y) = Return ()) → result (body x) = Raise e →
  for_each (l1 ++ x :: l2) body
  = (concat ((λ y, trace (body y)) <$> l1) ++ trace (body x), Raise e).
Proof.
  induction l1 as [|y l1 IH]; intros Hb Hx.
  - simpl app. rewrite for_each_cons.
    destruct (body x) as [t o]. simpl in Hx. by subst.
  - rewrite <- app_comm_cons, for_each_cons, fmap_cons.
    assert (body y = (trace (body y), Return ())) as Hy.
    { specialize (Hb y ltac:(left)). destruct (body y) as [t o]. simpl in *. by subst. }
    rewrite (bind_Return (body y) _ _ _ Hy), IH; [|by intros z ?; apply Hb; right|done].
    simpl. by rewrite app_assoc.
Qed.

(** ** The loops, one iteration at a time *)

Lemma get_sponsors_loop_S (w : World) fuel cursor sponsors :
  get_sponsors_loop w (S fuel) cursor sponsors =
  (response ← send w (PostGraphql cursor);
   raise_for_status response;;
   data ← json_data response;
   sponsors ← post_process w (nodes data) sponsors;
   if hasNextPage data
   then get_sponsors_loop w fuel (quoted (endCursor data)) sponsors
   else mret sponsors).
Proof. done. Qed.

(** Set membership in the orders of a world. *)
Lemma elem_of_members_order (w : World) (org team : string) (X : gset string) (x : string) :
  x ∈ members_order w org team X ↔ x ∈ X.
Proof. by rewrite (members_order_perm w org team X), elem_of_elements. Qed.

Lemma elem_of_eligible_order (w : World) (X : gset string) (x : string) :
  x ∈ eligible_order w X ↔ x ∈ X.
Proof. by rewrite (eligible_order_perm w X), elem_of_elements. Qed.

Lemma NoDup_members_order (w : World) (org team : string) (X : gset string) :
  NoDup (members_order w org team X).
Proof. rewrite (members_order_perm w org team X). apply NoDup_elements. Qed.

Lemma NoDup_eligible_order (w : World) (X : gset string) : NoDup (eligible_order w X).
Proof. rewrite (eligible_order_perm w X). apply NoDup_elements. Qed.

Lemma get_members_loop_S (w : World) fuel org team page members :
  get_members_loop w (S fuel) org team page members =
  (response ← send w (GetMembers org team page);
   raise_for_status response;;
   response_data ← json_users response;
   if (length response_data <? 100)%nat
   then users ← json_users response; mret (logins users)
   else get_members_loop w fuel org team (page + 1)%nat
          (members ∪ logins response_data)).
Proof. done. Qed.

(** ** The events each function can produce *)

Section events.
Context (w : World) (P : event → Prop).

Lemma trace_raise_for_status response : Forall P (trace (raise_for_status response)).
Proof. unfold raise_for_status. destruct (is_success response); constructor. Qed.

Lemma trace_json_users response : Forall P (trace (json_users response)).
Proof. unfold json_users. repeat case_match; constructor. Qed.

Lemma trace_json_data response : Forall P (trace (json_data response)).
Proof. unfold json_data. repeat case_match; constructor. Qed.

Lemma trace_json_message response : Forall P (trace (json_message response)).
Proof. unfold json_message. repeat case_match; constructor. Qed.

Lemma trace_post_process items sponsors :
  Forall P (trace (post_process w items sponsors)).
Proof.
  revert sponsors. induction items as [|item items IH]; intros sponsors; [constructor|].
  simpl. destruct (isOneTimePayment item); [apply IH|].
  apply trace_bind; [|intros; apply IH].
  unfold sponsor_of_item. destruct (strptime w (createdAt item)); constructor.
Qed.

Lemma trace_get_sponsors_loop fuel cursor sponsors :
  (∀ c, P (Sent (PostGraphql c))) →
  Forall P (trace (get_sponsors_loop w fuel cursor sponsors)).
Proof.
  intros HP. revert cursor sponsors.
  induction fuel as [|fuel IH]; intros cursor sponsors; [constructor|].
  rewrite get_sponsors_loop_S.
  apply trace_bind; [by repeat constructor|]. intros response.
  apply trace_bind; [apply trace_raise_for_status|]. intros _.
  apply trace_bind; [apply trace_json_data|]. intros data.
  apply trace_bind; [apply trace_post_process|]. intros sponsors'.
  destruct (hasNextPage data); [apply IH|constructor].
Qed.

Lemma trace_get_members_loop fuel org team page members :
  (∀ p, P (Sent (GetMembers org team p))) →
  Forall P (trace (get_members_loop w fuel org team page members)).
Proof.
  intros HP. revert page members.
  induction fuel as [|fuel IH]; intros page members; [constructor|].
  rewrite get_members_loop_S.
  apply trace_bind; [by repeat constructor|]. intros response.
  apply trace_bind; [apply trace_raise_for_status|]. intros _.
  apply trace_bind; [apply trace_json_users|]. intros response_data.
  destruct (_ <? _)%nat; [|apply IH].
  apply trace_bind; [apply trace_json_users|]. intros; constructor.
Qed.

Lemma trace_get_invited org team :
  P (Sent (GetInvitations org team)) → Forall P (trace (get_invited w org team)).
Proof.
  intros HP. unfold get_invited.
  apply trace_bind; [by repeat constructor|]. intros response.
  apply trace_bind; [apply trace_raise_for_status|]. intros _.
  apply trace_bind; [apply trace_json_users|]. intros; constructor.
Qed.

Lemma trace_grant user org team :
  P (Sent (PutMembership org team user)) → (∀ l, P (Printed l)) →
  Forall P (trace (grant w user org team)).
Proof.
  intros HP Hl. unfold grant.
  apply trace_bind; [by repeat constructor|]. intros response.
  apply trace_try_except; [apply trace_raise_for_status| |by repeat constructor].
  intros e. apply trace_bind; [by repeat constructor|]. intros _.
  destruct (has_content response); [|constructor].
  apply trace_bind; [apply trace_json_message|]. intros [??]. by repeat constructor.
Qed.

Lemma trace_revoke user org team :
  P (Sent (DeleteMembership org team user)) → (∀ l, P (Printed l)) →
  Forall P (trace (revoke w user org team)).
Proof.
  intros HP Hl. unfold revoke.
  apply trace_bind; [by repeat constructor|]. intros response.
  apply trace_try_except; [apply trace_raise_for_status| |by repeat constructor].
  intros e. apply trace_bind; [by repeat constructor|]. intros _.
  destruct (has_content response); [|constructor].
  apply trace_bind; [apply trace_json_message|]. intros [??]. by repeat constructor.
Qed.

Lemma trace_write_reports sponsors :
  (∀ f c, P (Wrote f c)) → (∀ f, P (Truncated f)) →
  Forall P (trace (write_reports w sponsors)).
Proof.
  intros HP HT. unfold write_reports, write_json.
  apply trace_bind; [|intros _]; destruct (file_write w _); by repeat constructor.
Qed.
End events.

(** ** Writing the reports *)

Lemma write_reports_writable (w : World) (sponsors : list Sponsor) :
  reports_writable w → write_reports w sponsors = (reports sponsors, Return ()).
Proof. intros [H1 H2]. unfold write_reports, write_json. by rewrite H1, H2. Qed.

(** The reports phase returns only when both files were written. *)
Lemma write_reports_Return_inv (w : World) (sponsors : list Sponsor) (t : list event) :
  write_reports w sponsors = (t, Return ()) → reports_writable w ∧ t = reports sponsors.
Proof.
  unfold write_reports, write_json, reports_writable.
  destruct (file_write w "numbers.json"), (file_write w "sponsors.json");
    try done; by intros [= <-].
Qed.

(** ** The calls a trace holds *)

Lemma grant_calls_app (t1 t2 : list event) :
  grant_calls (t1 ++ t2) = grant_calls t1 ++ grant_calls t2.
Proof. apply omap_app. Qed.

Lemma revoke_calls_app (t1 t2 : list event) :
  revoke_calls (t1 ++ t2) = revoke_calls t1 ++ revoke_calls t2.
Proof. apply omap_app. Qed.

Lemma no_mutation_no_calls (t : list event) :
  Forall (λ e, ¬ is_mutation e) t → grant_calls t = [] ∧ revoke_calls t = [].
Proof.
  induction 1 as [|e t He _ [IHg IHr]]; [done|].
  change (e :: t) with ([e] ++ t).
  rewrite grant_calls_app, revoke_calls_app, IHg, IHr.
  destruct e as [[]| | |]; simpl in *; tauto.
Qed.

Lemma elem_of_revoke_calls (t : list event) org team user :
  (org, team, user) ∈ revoke_calls t ↔ Sent (DeleteMembership org team user) ∈ t.
Proof.
  unfold revoke_calls. rewrite list_elem_of_omap. split.
  - intros (e & He & Hm). destruct e as [[]| | |]; simplify_eq. done.
  - intros ?. by exists (Sent (DeleteMembership org team user)).
Qed.

Lemma elem_of_grant_calls (t : list event) org team user :
  (org, team, user) ∈ grant_calls t ↔ Sent (PutMembership org team user) ∈ t.
Proof.
  unfold grant_calls. rewrite list_elem_of_omap. split.
  - intros (e & He & Hm). destruct e as [[]| | |]; simplify_eq. done.
  - intros ?. by exists (Sent (PutMembership org team user)).
Qed.

(** ** The team loop *)

Section teams.
Context (w : World) (P : event → Prop).
Hypothesis P_members : ∀ org team p, P (Sent (GetMembers org team p)).
Hypothesis P_invited : ∀ org team, P (Sent (GetInvitations org team)).
Hypothesis P_printed : ∀ l, P (Printed l).

(** Only a handle outside [eligible_users] is revoked, only a handle
    inside it is granted. *)
Lemma trace_reconcile_team fuel (eligible : gset string) org team :
  (∀ user, user ∉ eligible → P (Sent (DeleteMembership org team user))) →
  (∀ user, user ∈ eligible → P (Sent (PutMembership org team user))) →
  Forall P (trace (reconcile_team w fuel eligible (org, team))).
Proof.
  intros Hrev Hgr. unfold reconcile_team.
  apply trace_bind; [by apply trace_get_members_loop|]. intros confirmed.
  apply trace_bind; [by apply trace_get_invited|]. intros invited.
  apply trace_bind.
  - apply trace_for_each. intros user _.
    destruct (decide (user ∉ eligible)); [|constructor].
    apply trace_revoke; auto.
  - intros _. apply trace_for_each. intros user Hin.
    destruct (decide (user ∉ confirmed ∪ invited)); [|constructor].
    apply trace_grant; [|done]. apply Hgr. by apply elem_of_eligible_order in Hin.
Qed.

Lemma trace_main cfg fuel :
  (∀ c, P (Sent (PostGraphql c))) →
  (∀ f c, P (Wrote f c)) →
  (∀ f, P (Truncated f)) →
  (∀ sponsors org team user, user ∉ eligible_users cfg sponsors →
     P (Sent (DeleteMembership org team user))) →
  (∀ sponsors org team user, user ∈ eligible_users cfg sponsors →
     P (Sent (PutMembership org team user))) →
  Forall P (trace (main cfg w fuel)).
Proof.
  intros Hq Hw Ht Hrev Hgr. unfold main.
  apply trace_bind; [by apply trace_get_sponsors_loop|]. intros sponsors.
  apply trace_bind; [|intros; by apply trace_write_reports].
  apply trace_for_each. intros [org team] _.
  apply trace_reconcile_team; eauto.
Qed.
End teams.

(** ** One grant, one revoke *)

Lemma send_bind {B} (w : World) (r : request) (k : Response → M B) :
  send w r ≫= k = (Sent r :: trace (k (w r)), result (k (w r))).
Proof. unfold send, mbind, M_bind, bind. by destruct (k (w r)). Qed.

Lemma print_bind {B} (l : line) (k : unit → M B) :
  print l ≫= k = (Printed l :: trace (k ()), result (k ())).
Proof. unfold print, emit, mbind, M_bind, bind. by destruct (k ()). Qed.

Lemma body_report_prints (response : Response) :
  Forall (λ e, ∃ l, e = Printed l) (trace (body_report response)).
Proof.
  unfold body_report. destruct (has_content response); [|constructor].
  apply trace_bind; [apply trace_json_message|]. intros [??]. repeat constructor. eauto.
Qed.

Lemma body_report_Return (response : Response) :
  is_success response = false → provider_error_body response →
  result (body_report response) = Return ().
Proof.
  intros Hs [?|[Hc|(fields & m & d & Hc & Hm & Hd)]]; [congruence|..];
    unfold body_report, has_content, json_message; rewrite Hc; [done|].
  by rewrite Hm, Hd.
Qed.


Section mutation.
Context (w : World) (user org team : string).

Lemma grant_success :
  is_success (w (PutMembership org team user)) = true →
  grant w user org team
  = ([Sent (PutMembership org team user); Printed (Added user org team)], Return ()).
Proof.
  intros Hs. unfold grant. rewrite send_bind. unfold raise_for_status. by rewrite Hs.
Qed.

Lemma grant_failure :
  let response := w (PutMembership org team user) in
  is_success response = false →
  grant w user org team
  = (Sent (PutMembership org team user)
       :: Printed (CouldntAdd user org team (HTTPStatusError (status_code response)))
       :: trace (body_report response),
     result (body_report response)).
Proof.
  intros response Hs. subst response. unfold grant. rewrite send_bind.
  unfold raise_for_status. rewrite Hs.
  unfold try_except, raise; cbn [is_HTTPError]. rewrite print_bind.
  fold (body_report (w (PutMembership org team user))).
  by destruct (body_report _).
Qed.

Lemma revoke_success :
  is_success (w (DeleteMembership org team user)) = true →
  revoke w user org team
  = ([Sent (DeleteMembership org team user); Printed (Removed user org team)], Return ()).
Proof.
  intros Hs. unfold revoke. rewrite send_bind. unfold raise_for_status. by rewrite Hs.
Qed.

Lemma revoke_failure :
  let response := w (DeleteMembership org team user) in
  is_success response = false →
  revoke w user org team
  = (Sent (DeleteMembership org team user)
       :: Printed (CouldntRemove user org team (HTTPStatusError (status_code response)))
       :: trace (body_report response),
     result (body_report response)).
Proof.
  intros response Hs. subst response. unfold revoke. rewrite send_bind.
  unfold raise_for_status. rewrite Hs.
  unfold try_except, raise; cbn [is_HTTPError]. rewrite print_bind.
  fold (body_report (w (DeleteMembership org team user))).
  by destruct (body_report _).
Qed.

Lemma printed_no_calls (t : list event) :
  Forall (λ e, ∃ l, e = Printed l) t → grant_calls t = [] ∧ revoke_calls t = [].
Proof.
  intros Hp. apply no_mutation_no_calls. eapply Forall_impl; [exact Hp|].
  intros e [l ->]. simpl. tauto.
Qed.

(** The request is sent first and is the only one. *)
Lemma grant_calls_grant :
  grant_calls (trace (grant w user org team)) = [(org, team, user)].
Proof.
  destruct (is_success (w (PutMembership org team user))) eqn:Hs.
  - by rewrite grant_success.
  - rewrite grant_failure by done. unfold trace at 1. cbn [fst].
    change (?a :: ?b :: ?t) with ([a; b] ++ t). rewrite grant_calls_app.
    by rewrite (proj1 (printed_no_calls _ (body_report_prints _))).
Qed.

Lemma revoke_calls_revoke :
  revoke_calls (trace (revoke w user org team)) = [(org, team, user)].
Proof.
  destruct (is_success (w (DeleteMembership org team user))) eqn:Hs.
  - by rewrite revoke_success.
  - rewrite revoke_failure by done. unfold trace at 1. cbn [fst].
    change (?a :: ?b :: ?t) with ([a; b] ++ t). rewrite revoke_calls_app.
    by rewrite (proj2 (printed_no_calls _ (body_report_prints _))).
Qed.

Lemma grant_Return :
  provider_error_body (w (PutMembership org team user)) →
  result (grant w user org team) = Return ().
Proof.
  intros Hb. destruct (is_success (w (PutMembership org team user))) eqn:Hs.
  - by rewrite grant_success.
  - rewrite grant_failure by done. by apply body_report_Return.
Qed.

Lemma revoke_Return :
  provider_error_body (w (DeleteMembership org team user)) →
  result (revoke w user org team) = Return ().
Proof.
  intros Hb. destruct (is_success (w (DeleteMembership org team user))) eqn:Hs.
  - by rewrite revoke_success.
  - rewrite revoke_failure by done. by apply body_report_Return.
Qed.


End mutation.

(** ** get_members on a listing of several pages *)

(** When the provider serves [n] full pages followed by a short one, the
    loop fetches the [n + 1] pages and, given fuel for them, returns the
    handles of the short page alone, whatever was accumulated. *)
Lemma get_members_loop_pages (w : World) (org team : string) (n : nat) :
  ∀ (fuel page : nat) (members : gset string) (pages : nat → list User),
    (∀ i, (i ≤ n)%nat →
          is_success (w (GetMembers org team (page + i)%nat)) = true
          ∧ content (w (GetMembers org team (page + i)%nat)) = JsonUsers (pages i)) →
    (∀ i, (i < n)%nat → (100 ≤ length (pages i))%nat) →
    (length (pages n) < 100)%nat →
    (n < fuel)%nat →
    get_members_loop w fuel org team page members
    = ((λ i, Sent (GetMembers org team (page + i)%nat)) <$> seq 0 (S n),
       Return (logins (pages n))).
Proof.
  induction n as [|n IH]; intros fuel page members pages Hserved Hfull Hshort Hfuel;
    (destruct fuel as [|fuel]; [lia|]); rewrite get_members_loop_S, send_bind;
    destruct (Hserved 0%nat ltac:(lia)) as [Hs Hc]; rewrite Nat.add_0_r in Hs, Hc;
    unfold raise_for_status, json_users; rewrite Hs, Hc, mret_bind, mret_bind.
  - apply Nat.ltb_lt in Hshort as ->. rewrite mret_bind.
    simpl. by rewrite Nat.add_0_r.
  - specialize (Hfull 0%nat ltac:(lia)) as Hfirst.
    apply Nat.ltb_ge in Hfirst as ->.
    rewrite (IH fuel (page + 1)%nat _ (λ i, pages (S i))).
    + rewrite trace_pair, result_pair. f_equal.
      change (seq 0 (S (S n))) with (0%nat :: seq 1 (S n)).
      rewrite fmap_cons, Nat.add_0_r. f_equal.
      rewrite <- (fmap_S_seq 0 (S n)), <- list_fmap_compose.
      apply list_fmap_ext. intros _ i _. simpl. do 2 f_equal. lia.
    + intros i Hi. replace (page + 1 + i)%nat with (page + S i)%nat by lia.
      apply Hserved. lia.
    + intros i Hi. apply Hfull. lia.
    + done.
    + lia.
Qed.

(** ** Applying: the two loops of lines 208-214 *)

Lemma filter_none {A} (P : A → Prop) `{!∀ x, Decision (P x)} (l : list A) :
  (∀ x, x ∈ l → ¬ P x) → filter P l = [].
Proof.
  induction l as [|x l IH]; intros Hl; [done|].
  rewrite filter_cons_False by (apply Hl; left). apply IH. intros y ?. apply Hl. by right.
Qed.


Section applying.
Context (w : World) (org team : string) (members eligible : gset string).

Lemma revoke_accesses_list :
  revoke_accesses w org team members eligible
  = for_each (revoke_list w org team members eligible) (λ user, revoke w user org team).
Proof. apply (for_each_filter (λ user, user ∉ eligible)). Qed.

Lemma grant_accesses_list :
  grant_accesses w org team members eligible
  = for_each (grant_list w members eligible) (λ user, grant w user org team).
Proof. apply (for_each_filter (λ user, user ∉ members)). Qed.

Lemma revoke_calls_concat (l : list string) :
  revoke_calls (concat ((λ user, trace (revoke w user org team)) <$> l))
  = (λ user, (org, team, user)) <$> l.
Proof.
  induction l as [|user l IH]; [done|].
  rewrite !fmap_cons, concat_cons, revoke_calls_app, revoke_calls_revoke, IH. done.
Qed.

Lemma grant_calls_concat (l : list string) :
  grant_calls (concat ((λ user, trace (grant w user org team)) <$> l))
  = (λ user, (org, team, user)) <$> l.
Proof.
  induction l as [|user l IH]; [done|].
  rewrite !fmap_cons, concat_cons, grant_calls_app, grant_calls_grant, IH. done.
Qed.

Lemma revoke_accesses_Return :
  (∀ user, provider_error_body (w (DeleteMembership org team user))) →
  revoke_accesses w org team members eligible
  = (concat ((λ user, trace (revoke w user org team))
               <$> revoke_list w org team members eligible),
     Return ()).
Proof.
  intros Hb. rewrite revoke_accesses_list. apply for_each_Return.
  intros user _. by apply revoke_Return.
Qed.

Lemma grant_accesses_Return :
  (∀ user, provider_error_body (w (PutMembership org team user))) →
  grant_accesses w org team members eligible
  = (concat ((λ user, trace (grant w user org team)) <$> grant_list w members eligible),
     Return ()).
Proof.
  intros Hb. rewrite grant_accesses_list. apply for_each_Return.
  intros user _. by apply grant_Return.
Qed.

(** The loops visit the two differences of Section 4.5, each handle once. *)
Lemma revoke_list_toRevoke :
  list_to_set (revoke_list w org team members eligible) = toRevoke members eligible
  ∧ NoDup (revoke_list w org team members eligible).
Proof.
  split; [|apply NoDup_filter, NoDup_members_order].
  apply set_eq. intros user. unfold revoke_list, toRevoke.
  rewrite elem_of_list_to_set, list_elem_of_filter, elem_of_members_order,
    elem_of_difference. tauto.
Qed.

Lemma grant_list_toGrant :
  list_to_set (grant_list w members eligible) = toGrant members eligible
  ∧ NoDup (grant_list w members eligible).
Proof.
  split; [|apply NoDup_filter, NoDup_eligible_order].
  apply set_eq. intros user. unfold grant_list, toGrant.
  rewrite elem_of_list_to_set, list_elem_of_filter, elem_of_eligible_order,
    elem_of_difference. tauto.
Qed.
End applying.

Lemma revoke_list_same (w : World) (org team : string) (eligible : gset string) :
  revoke_list w org team eligible eligible = [].
Proof.
  apply filter_none. intros user Hin Hn. apply Hn. by apply elem_of_members_order in Hin.
Qed.

Lemma grant_list_same (w : World) (eligible : gset string) :
  grant_list w eligible eligible = [].
Proof.
  apply filter_none. intros user Hin Hn. apply Hn. by apply elem_of_eligible_order in Hin.
Qed.

(** Once both listings are fetched, the rest of the loop body is the two
    loops over the snapshot [confirmed ∪ invited]. *)
Lemma reconcile_team_fetched (w : World) fuel eligible org team tm confirmed ti invited :
  get_members w fuel org team = (tm, Return confirmed) →
  get_invited w org team = (ti, Return invited) →
  let apply := revoke_accesses w org team (confirmed ∪ invited) eligible;;
               grant_accesses w org team (confirmed ∪ invited) eligible in
  reconcile_team w fuel eligible (org, team) = (tm ++ ti ++ trace apply, result apply).
Proof.
  intros Hm Hi apply. unfold reconcile_team.
  rewrite (bind_Return (get_members w fuel org team) _ _ _ Hm).
  rewrite (bind_Return (get_invited w org team) _ _ _ Hi).
  done.
Qed.


(** With both listings fetched and well-formed mutation responses, the
    loop body completes and its calls are those of the two lists. *)
Lemma reconcile_team_calls (w : World) fuel eligible org team tm confirmed ti invited :
  get_members w fuel org team = (tm, Return confirmed) →
  get_invited w org team = (ti, Return invited) →
  (∀ user, provider_error_body (w (PutMembership org team user))) →
  (∀ user, provider_error_body (w (DeleteMembership org team user))) →
  ∃ t, reconcile_team w fuel eligible (org, team) = (t, Return ())
       ∧ grant_calls t
         = (λ user, (org, team, user)) <$> grant_list w (confirmed ∪ invited) eligible
       ∧ revoke_calls t
         = (λ user, (org, team, user))
             <$> revoke_list w org team (confirmed ∪ invited) eligible.
Proof.
  intros Hm Hi Hput Hdel.
  rewrite (reconcile_team_fetched _ _ _ _ _ _ _ _ _ Hm Hi).
  rewrite revoke_accesses_Return, grant_accesses_Return by done.
  rewrite (bind_Return (_, Return ()) _ _ () eq_refl), !trace_pair, !result_pair.
  eexists. split; [done|].
  assert (Forall (λ e, ¬ is_mutation e) tm) as Htm.
  { assert (tm = trace (get_members w fuel org team)) as -> by by rewrite Hm.
    apply trace_get_members_loop. intros ? []. }
  assert (Forall (λ e, ¬ is_mutation e) ti) as Hti.
  { assert (ti = trace (get_invited w org team)) as -> by by rewrite Hi.
    apply trace_get_invited. intros []. }
  apply no_mutation_no_calls in Htm as [Hg1 Hr1], Hti as [Hg2 Hr2].
  rewrite !grant_calls_app, !revoke_calls_app, Hg1, Hg2, Hr1, Hr2.
  rewrite revoke_calls_concat, grant_calls_concat. simpl.
  assert (∀ l, grant_calls (concat ((λ user, trace (revoke w user org team)) <$> l)) = [])
    as ->.
  { induction l as [|user l IH]; [done|].
    rewrite fmap_cons, concat_cons, grant_calls_app, IH, app_nil_r.
    destruct (is_success (w (DeleteMembership org team user))) eqn:Hs.
    - by rewrite revoke_success.
    - rewrite revoke_failure, trace_pair by done.
      change (?a :: ?b :: ?t) with ([a; b] ++ t). rewrite grant_calls_app.
      by rewrite (proj1 (printed_no_calls _ (body_report_prints _))). }
  assert (∀ l, revoke_calls (concat ((λ user, trace (grant w user org team)) <$> l)) = [])
    as ->.
  { induction l as [|user l IH]; [done|].
    rewrite fmap_cons, concat_cons, revoke_calls_app, IH, app_nil_r.
    destruct (is_success (w (PutMembership org team user))) eqn:Hs.
    - by rewrite grant_success.
    - rewrite grant_failure, trace_pair by done.
      change (?a :: ?b :: ?t) with ([a; b] ++ t). rewrite revoke_calls_app.
      by rewrite (proj2 (printed_no_calls _ (body_report_prints _))). }
  by rewrite app_nil_r.
Qed.

(** ** The whole run *)

Lemma main_fetched (cfg : Config) (w : World) fuel ts sponsors tt o :
  get_sponsors w fuel = (ts, Return sponsors) →
  for_each (INSIDERS_TEAMS cfg) (reconcile_team w fuel (eligible_users cfg sponsors))
    = (tt, o) →
  main cfg w fuel
  = match o with
    | Return _ => (ts ++ tt ++ trace (write_reports w sponsors),
                   result (write_reports w sponsors))
    | _ => (ts ++ tt, o)
    end.
Proof.
  intros Hs Ht. unfold main. rewrite (bind_Return (get_sponsors w fuel) _ _ _ Hs).
  cbv zeta. rewrite Ht. destruct o as [[]| |]; [|done..].
  by rewrite (bind_Return (tt, Return ()) _ tt () eq_refl), trace_pair, result_pair.
Qed.

Lemma main_Return_inv (cfg : Config) (w : World) fuel t :
  main cfg w fuel = (t, Return ()) →
  ∃ ts sponsors tt,
    get_sponsors w fuel = (ts, Return sponsors)
    ∧ for_each (INSIDERS_TEAMS cfg) (reconcile_team w fuel (eligible_users cfg sponsors))
      = (tt, Return ())
    ∧ reports_writable w
    ∧ t = ts ++ tt ++ reports sponsors.
Proof.
  unfold main. intros Hm.
  apply bind_Return_inv in Hm as (ts & sponsors & t1 & Hs & Hrest & ->).
  cbv zeta in Hrest.
  apply bind_Return_inv in Hrest as (tt & [] & t2 & Ht & Hw & ->).
  exists ts, sponsors, tt. split; [done|]. split; [done|].
  apply write_reports_Return_inv in Hw as [? ->]. done.
Qed.

Lemma snd_calls (org team : string) (l : list string) :
  (λ call : string * string * string, call.2) <$> ((λ user, (org, team, user)) <$> l) = l.
Proof.
  rewrite <- list_fmap_compose. induction l as [|x l IH]; [done|].
  by rewrite fmap_cons, IH.
Qed.

(** A run over a single team whose fetches return and whose mutation
    responses are in the provider's format: the handles granted and
    revoked are the two differences, each requested once, and the run
    returns when both reports can be written. *)
Lemma main_single_team (cfg : Config) (w : World) fuel org team ts sponsors
    tm confirmed ti invited :
  INSIDERS_TEAMS cfg = [(org, team)] →
  get_sponsors w fuel = (ts, Return sponsors) →
  get_members w fuel org team = (tm, Return confirmed) →
  get_invited w org team = (ti, Return invited) →
  (∀ user, provider_error_body (w (PutMembership org team user))) →
  (∀ user, provider_error_body (w (DeleteMembership org team user))) →
  granted (trace (main cfg w fuel))
  = toGrant (confirmed ∪ invited) (eligible_users cfg sponsors)
  ∧ revoked (trace (main cfg w fuel))
    = toRevoke (confirmed ∪ invited) (eligible_users cfg sponsors)
  ∧ length (grant_calls (trace (main cfg w fuel)))
    = size (toGrant (confirmed ∪ invited) (eligible_users cfg sponsors))
  ∧ length (revoke_calls (trace (main cfg w fuel)))
    = size (toRevoke (confirmed ∪ invited) (eligible_users cfg sponsors))
  ∧ (reports_writable w → result (main cfg w fuel) = Return ()).
Proof.
  intros Hteams Hs Hm Hi Hput Hdel.
  destruct (reconcile_team_calls w fuel (eligible_users cfg sponsors)
              _ _ _ _ _ _ Hm Hi Hput Hdel) as (t & Ht & Hg & Hr).
  assert (for_each (INSIDERS_TEAMS cfg)
            (reconcile_team w fuel (eligible_users cfg sponsors))
          = (t ++ [], Return ())) as Hloop.
  { rewrite Hteams, for_each_cons. by apply (bind_Return' _ _ t () [] (Return ())). }
  rewrite (main_fetched _ _ _ _ _ _ _ Hs Hloop), trace_pair, result_pair.
  assert (Forall (λ e, ¬ is_mutation e) ts) as Hts.
  { assert (ts = trace (get_sponsors w fuel)) as -> by by rewrite Hs.
    apply trace_get_sponsors_loop. intros ? []. }
  assert (Forall (λ e, ¬ is_mutation e) (trace (write_reports w sponsors))) as Hws
    by (apply trace_write_reports; intros; intros []).
  apply no_mutation_no_calls in Hts as [Hg0 Hr0], Hws as [Hg1 Hr1].
  unfold granted, revoked.
  rewrite !grant_calls_app, !revoke_calls_app, Hg0, Hr0, Hg1, Hr1, Hg, Hr, !app_nil_r.
  simpl. rewrite !snd_calls, !length_fmap.
  destruct (grant_list_toGrant w (confirmed ∪ invited) (eligible_users cfg sponsors))
    as [Hgs Hgn].
  destruct (revoke_list_toRevoke w org team (confirmed ∪ invited)
              (eligible_users cfg sponsors)) as [Hrs Hrn].
  split; [done|]. split; [done|].
  split; [by rewrite <- Hgs, size_list_to_set|].
  split; [by rewrite <- Hrs, size_list_to_set|].
  intros Hfiles. by rewrite (write_reports_writable _ _ Hfiles).
Qed.

Lemma grant_calls_revokes (w : World) (org team : string) (l : list string) :
  grant_calls (concat ((λ user, trace (revoke w user org team)) <$> l)) = [].
Proof.
  induction l as [|user l IH]; [done|].
  rewrite fmap_cons, concat_cons, grant_calls_app, IH, app_nil_r.
  destruct (is_success (w (DeleteMembership org team user))) eqn:Hs.
  - by rewrite revoke_success.
  - rewrite revoke_failure, trace_pair by done.
    change (?a :: ?b :: ?t) with ([a; b] ++ t). rewrite grant_calls_app.
    by rewrite (proj1 (printed_no_calls _ (body_report_prints _))).
Qed.

(** C5, where the code departs from it.  When the provider answers the
    grants with a failure whose body is not JSON, the first grant the loop
    sends, whichever handle the iteration starts with, ends the run with
    the decoding error raised inside the handler of the status error: the
    diagnostic of line 171 is printed, no other handle due a grant is
    requested, and no report is written. *)
Theorem undecodable_error_body_aborts_run (cfg : Config) (w : World) (fuel : nat)
    (org team : string) (ts tm ti : list event) (sponsors : list Sponsor)
    (confirmed invited : gset string) :
  INSIDERS_TEAMS cfg = [(org, team)] →
  get_sponsors w fuel = (ts, Return sponsors) →
  get_members w fuel org team = (tm, Return confirmed) →
  get_invited w org team = (ti, Return invited) →
  (∀ user, is_success (w (PutMembership org team user)) = false
           ∧ content (w (PutMembership org team user)) = NotJson) →
  (∀ user, provider_error_body (w (DeleteMembership org team user))) →
  let due := toGrant (confirmed ∪ invited) (eligible_users cfg sponsors) in
  let run := main cfg w fuel in
  due ≠ ∅ →
  result run = Raise JSONDecodeError
  ∧ (∃ user,
       user ∈ due
       ∧ grant_calls (trace run) = [(org, team, user)]
       ∧ Printed (CouldntAdd user org team
                    (HTTPStatusError (status_code (w (PutMembership org team user)))))
           ∈ trace run
       ∧ ∀ other, other ∈ due → other ≠ user →
                  Sent (PutMembership org team other) ∉ trace run)
  ∧ Forall (λ e, ¬ is_write e) (trace run).
Proof.
  intros Hteams Hs Hm Hi Hput Hdel due run Hdue. subst run due.
  set (E := eligible_users cfg sponsors) in *.
  destruct (grant_list_toGrant w (confirmed ∪ invited) E) as [Hset _].
  destruct (grant_list w (confirmed ∪ invited) E) as [|x rest] eqn:Hl;
    [by destruct Hdue; rewrite <- Hset|].
  assert (x ∈ toGrant (confirmed ∪ invited) E) as Hx
    by (rewrite <- Hset; apply elem_of_list_to_set; left).
  set (failure := [Sent (PutMembership org team x);
                   Printed (CouldntAdd x org team
                              (HTTPStatusError
                                 (status_code (w (PutMembership org team x)))))]).
  assert (grant w x org team = (failure, Raise JSONDecodeError)) as Hgx.
  { destruct (Hput x) as [Hf Hc]. rewrite grant_failure by done.
    unfold body_report, has_content, json_message. by rewrite Hc. }
  assert (grant_accesses w org team (confirmed ∪ invited) E
          = (failure, Raise JSONDecodeError)) as Hga.
  { by rewrite grant_accesses_list, Hl, for_each_cons, (bind_Raise _ _ _ _ Hgx). }
  set (revokes := concat ((λ user, trace (revoke w user org team))
                            <$> revoke_list w org team (confirmed ∪ invited) E)).
  assert (reconcile_team w fuel E (org, team)
          = (tm ++ ti ++ revokes ++ failure, Raise JSONDecodeError)) as Hrt.
  { rewrite (reconcile_team_fetched _ _ _ _ _ _ _ _ _ Hm Hi).
    rewrite revoke_accesses_Return by done. fold revokes.
    by rewrite (bind_Return' (revokes, Return ()) _ revokes () failure
                  (Raise JSONDecodeError) eq_refl Hga). }
  assert (for_each (INSIDERS_TEAMS cfg) (reconcile_team w fuel E)
          = (tm ++ ti ++ revokes ++ failure, Raise JSONDecodeError)) as Hloop
    by by rewrite Hteams, for_each_cons, (bind_Raise _ _ _ _ Hrt).
  rewrite (main_fetched _ _ _ _ _ _ _ Hs Hloop), trace_pair, result_pair.
  assert (Forall (λ e, ¬ is_mutation e) ts) as Hts.
  { assert (ts = trace (get_sponsors w fuel)) as -> by by rewrite Hs.
    apply trace_get_sponsors_loop. intros ? []. }
  assert (Forall (λ e, ¬ is_mutation e) tm) as Htm.
  { assert (tm = trace (get_members w fuel org team)) as -> by by rewrite Hm.
    apply trace_get_members_loop. intros ? []. }
  assert (Forall (λ e, ¬ is_mutation e) ti) as Hti.
  { assert (ti = trace (get_invited w org team)) as -> by by rewrite Hi.
    apply trace_get_invited. intros []. }
  apply no_mutation_no_calls in Hts as [Hg0 _], Htm as [Hg1 _], Hti as [Hg2 _].
  assert (grant_calls (ts ++ tm ++ ti ++ revokes ++ failure) = [(org, team, x)]) as Hcalls.
  { unfold revokes. by rewrite !grant_calls_app, Hg0, Hg1, Hg2, grant_calls_revokes. }
  split; [done|]. split.
  - exists x. split; [done|]. split; [done|]. split.
    + do 4 (apply elem_of_app; right). right. left.
    + intros other _ Hne Hin. apply elem_of_grant_calls in Hin. rewrite Hcalls in Hin.
      apply list_elem_of_singleton in Hin. by injection Hin.
  - apply Forall_app. split.
    + assert (ts = trace (get_sponsors w fuel)) as -> by by rewrite Hs.
      apply trace_get_sponsors_loop. intros ? [].
    + assert (tm ++ ti ++ revokes ++ failure = trace (reconcile_team w fuel E (org, team)))
        as -> by by rewrite Hrt.
      apply trace_reconcile_team; intros; intros [].
Qed.

(** C7, where the code departs from it.  A team whose confirmed-member
    listing is exactly the eligibility set, on one full page of 100
    handles followed by an empty page, with no invitation pending: the
    snapshot [get_members] hands to the loop is empty, so the run sends no
    revoke and a grant request for every handle of the eligibility set,
    every one of them a listed member, although the difference between the
    eligibility set and the listing is empty. *)
Theorem full_page_team_granted_again (cfg : Config) (w : World) (fuel : nat)
    (org team : string) (ts ti : list event) (sponsors : list Sponsor)
    (page : list User) :
  INSIDERS_TEAMS cfg = [(org, team)] →
  get_sponsors w fuel = (ts, Return sponsors) →
  is_success (w (GetMembers org team 1)) = true →
  content (w (GetMembers org team 1)) = JsonUsers page →
  length page = 100%nat →
  is_success (w (GetMembers org team 2)) = true →
  content (w (GetMembers org team 2)) = JsonUsers [] →
  get_invited w org team = (ti, Return ∅) →
  logins page = eligible_users cfg sponsors →
  (∀ user, provider_error_body (w (PutMembership org team user))) →
  (∀ user, provider_error_body (w (DeleteMembership org team user))) →
  (2 ≤ fuel)%nat →
  let run := main cfg w fuel in
  toGrant (logins page) (eligible_users cfg sponsors) = ∅
  ∧ toRevoke (logins page) (eligible_users cfg sponsors) = ∅
  ∧ get_members w fuel org team
    = ([Sent (GetMembers org team 1); Sent (GetMembers org team 2)], Return ∅)
  ∧ granted (trace run) = eligible_users cfg sponsors
  ∧ length (grant_calls (trace run)) = size (eligible_users cfg sponsors)
  ∧ (∀ member, member ∈ page → user_login member ∈ granted (trace run))
  ∧ granted (trace run) ≠ ∅
  ∧ revoke_calls (trace run) = []
  ∧ (reports_writable w → result run = Return ()).
Proof.
  intros Hteams Hs H1s H1c Hlen H2s H2c Hi Heq Hput Hdel Hfuel run. subst run.
  assert (get_members w fuel org team
          = ([Sent (GetMembers org team 1); Sent (GetMembers org team 2)], Return ∅))
    as Hm.
  { unfold get_members.
    rewrite (get_members_loop_pages w org team 1 fuel 1 ∅
               (λ i, match i with O => page | S _ => [] end)); [done|..].
    - intros [|[|i]] Hle; [done|done|lia].
    - intros [|i] Hlt; [lia|lia].
    - simpl. lia.
    - lia. }
  destruct (main_single_team cfg w fuel org team _ _ _ _ _ _ Hteams Hs Hm Hi Hput Hdel)
    as (Hg & Hr & Hgl & Hrl & Hres).
  assert (toGrant (∅ ∪ ∅) (eligible_users cfg sponsors) = eligible_users cfg sponsors)
    as HtoGrant.
  { unfold toGrant. rewrite (left_id_L ∅ (∪)). by rewrite difference_empty_L. }
  assert (toRevoke (∅ ∪ ∅) (eligible_users cfg sponsors) = ∅)
    as HtoRevoke.
  { unfold toRevoke. rewrite (left_id_L ∅ (∪)). by rewrite empty_difference_L. }
  rewrite HtoGrant in Hg, Hgl. rewrite HtoRevoke in Hrl.
  rewrite size_empty in Hrl. apply nil_length_inv in Hrl.
  rewrite Hg, Heq.
  split; [unfold toGrant; by rewrite difference_diag_L|].
  split; [unfold toRevoke; by rewrite difference_diag_L|].
  split; [done|]. split; [done|]. split; [done|].
  assert (∀ member, member ∈ page → user_login member ∈ eligible_users cfg sponsors)
    as Hlisted.
  { intros member Hin. rewrite <- Heq. unfold logins.
    apply elem_of_list_to_set, list_elem_of_fmap. by exists member. }
  split; [done|]. split; [|done].
  destruct page as [|member page]; [done|].
  intros Hnone. specialize (Hlisted member ltac:(left)). rewrite Hnone in Hlisted.
  by apply not_elem_of_empty in Hlisted.
Qed.

(** ** Totals *)

Lemma foldl_amount (a : Z) (l : list Sponsor) :
  foldl (λ acc sponsor, acc + amount sponsor) a l = a + total_amount l.
Proof.
  unfold total_amount. revert a. induction l as [|s l IH]; intros a; simpl; [lia|].
  rewrite (IH (a + amount s)), (IH (0 + amount s)). lia.
Qed.

Lemma total_amount_cons (s : Sponsor) (l : list Sponsor) :
  total_amount (s :: l) = amount s + total_amount l.
Proof. unfold total_amount at 1. simpl. apply foldl_amount. Qed.

Lemma totals_split (P : Sponsor → Prop) `{!∀ s, Decision (P s)} (l : list Sponsor) :
  total_amount l = total_amount (filter P l) + total_amount (filter (λ s, ¬ P s) l)
  ∧ length l = (length (filter P l) + length (filter (λ s, ¬ P s) l))%nat.
Proof.
  induction l as [|s l [IHt IHl]]; [done|].
  destruct (decide (P s)) as [HP|HP].
  - rewrite (filter_cons_True P) by done.
    rewrite (filter_cons_False (λ s, ¬ P s)) by tauto.
    rewrite !total_amount_cons. simpl. lia.
  - rewrite (filter_cons_False P) by done.
    rewrite (filter_cons_True (λ s, ¬ P s)) by done.
    rewrite !total_amount_cons. simpl. lia.
Qed.

(** X22.  When for every team the set that
    [get_members(org, team) | get_invited(org, team)] evaluates to equals
    the eligibility set, both differences are empty and the run sends no
    grant and no revoke request; it completes when both reports can be
    written. *)
Theorem second_run_is_idle (cfg : Config) (w : World) (fuel : nat)
    (ts : list event) (sponsors : list Sponsor) :
  get_sponsors w fuel = (ts, Return sponsors) →
  (∀ org team, (org, team) ∈ INSIDERS_TEAMS cfg →
     ∃ tm confirmed ti invited,
       get_members w fuel org team = (tm, Return confirmed)
       ∧ get_invited w org team = (ti, Return invited)
       ∧ confirmed ∪ invited = eligible_users cfg sponsors) →
  let eligibility := eligible_users cfg sponsors in
  (∀ org team, (org, team) ∈ INSIDERS_TEAMS cfg →
     ∃ confirmed invited,
       result (get_members w fuel org team) = Return confirmed
       ∧ result (get_invited w org team) = Return invited
       ∧ toGrant (confirmed ∪ invited) eligibility = ∅
       ∧ toRevoke (confirmed ∪ invited) eligibility = ∅
       ∧ grant_list w (confirmed ∪ invited) eligibility = []
       ∧ revoke_list w org team (confirmed ∪ invited) eligibility = [])
  ∧ (reports_writable w → result (main cfg w fuel) = Return ())
  ∧ grant_calls (trace (main cfg w fuel)) = []
  ∧ revoke_calls (trace (main cfg w fuel)) = [].
Proof.
  intros Hs Hteams eligibility. split.
  { intros org team Hin.
    destruct (Hteams org team Hin) as (tm & confirmed & ti & invited & Hm & Hi & Heq).
    exists confirmed, invited. rewrite Hm, Hi, Heq. fold eligibility.
    unfold toGrant, toRevoke.
    by rewrite difference_diag_L, grant_list_same, revoke_list_same. }
  assert (∀ target, target ∈ INSIDERS_TEAMS cfg →
            result (reconcile_team w fuel eligibility target) = Return ()
            ∧ Forall (λ e, ¬ is_mutation e)
                (trace (reconcile_team w fuel eligibility target))) as Hidle.
  { intros [org team] Hin.
    destruct (Hteams org team Hin) as (tm & confirmed & ti & invited & Hm & Hi & Heq).
    rewrite (reconcile_team_fetched _ _ _ _ _ _ _ _ _ Hm Hi), Heq.
    rewrite revoke_accesses_list, grant_accesses_list.
    fold eligibility. rewrite revoke_list_same, grant_list_same.
    rewrite trace_pair, result_pair. split; [done|].
    assert (tm = trace (get_members w fuel org team)) as -> by by rewrite Hm.
    assert (ti = trace (get_invited w org team)) as -> by by rewrite Hi.
    apply Forall_app. split; [apply trace_get_members_loop; intros ? []|].
    apply Forall_app. split; [apply trace_get_invited; intros []|constructor]. }
  assert (for_each (INSIDERS_TEAMS cfg) (reconcile_team w fuel eligibility)
          = (concat ((λ target, trace (reconcile_team w fuel eligibility target))
                       <$> INSIDERS_TEAMS cfg), Return ())) as Hloop.
  { apply for_each_Return. intros target Hin. by apply Hidle. }
  rewrite (main_fetched _ _ _ _ _ _ _ Hs Hloop), trace_pair, result_pair.
  split; [intros Hfiles; by rewrite (write_reports_writable _ _ Hfiles)|].
  apply no_mutation_no_calls.
  assert (ts = trace (get_sponsors w fuel)) as -> by by rewrite Hs.
  apply Forall_app. split; [apply trace_get_sponsors_loop; intros ? []|].
  apply Forall_app. split; [|apply trace_write_reports; intros; intros []].
  apply Forall_concat, Forall_fmap, Forall_forall. intros target Hin. by apply Hidle.
Qed.

Lemma total_amount_sum (sponsors : list Sponsor) :
  total_amount sponsors = sum_amounts sponsors.
Proof.
  induction sponsors as [|s sponsors IH]; [done|].
  rewrite total_amount_cons, IH. done.
Qed.

Lemma public_roster_entries (sponsors : list Sponsor) :
  public_roster sponsors
  = roster_entry <$> filter (λ s, private s = false) sponsors.
Proof. done. Qed.

Lemma sum_amounts_app (l1 l2 : list Sponsor) :
  sum_amounts (l1 ++ l2) = sum_amounts l1 + sum_amounts l2.
Proof. induction l1 as [|s l1 IH]; simpl; lia. Qed.

(** C9.  A run that completes ends by writing the two reports computed
    from the fetched sponsors, and writes nothing else: the roster holds,
    in their order, the handle, avatar, profile link and organisation flag
    of exactly the sponsors that are not private, while the total is the
    sum of the amounts of all sponsors and the count their number, the
    private ones included: leaving out any one sponsor lowers the total by
    its amount and the count by one. *)
Theorem reports_follow_privacy (cfg : Config) (w : World) (fuel : nat) (t : list event) :
  main cfg w fuel = (t, Return ()) →
  ∃ ts sponsors t',
    get_sponsors w fuel = (ts, Return sponsors)
    ∧ t = t' ++ [Wrote "numbers.json" (Numbers (sum_amounts sponsors) (length sponsors));
                 Wrote "sponsors.json"
                   (Roster (roster_entry <$> filter (λ s, private s = false) sponsors))]
    ∧ Forall (λ e, ¬ is_write e) t'
    ∧ (∀ a, a ∈ roster_entry <$> filter (λ s, private s = false) sponsors ↔
            ∃ s, s ∈ sponsors ∧ private s = false
                 ∧ a = mkAccountDict (name (account s)) (image (account s))
                         (url (account s)) (org (account s)))
    ∧ (∀ before s after, sponsors = before ++ s :: after →
         sum_amounts sponsors = amount s + sum_amounts (before ++ after)
         ∧ length sponsors = S (length (before ++ after)))
    ∧ sum_amounts sponsors
      = sum_amounts (filter (λ s, private s = true) sponsors)
        + sum_amounts (filter (λ s, ¬ private s = true) sponsors)
    ∧ length sponsors
      = (length (filter (λ s, private s = true) sponsors)
         + length (filter (λ s, ¬ private s = true) sponsors))%nat
    ∧ sum_amounts sponsors = foldr Z.add 0 (amount <$> sponsors)
    ∧ roster_entry <$> filter (λ s, private s = false) sponsors
      = (λ s, mkAccountDict (name (account s)) (image (account s))
                            (url (account s)) (org (account s)))
          <$> filter (λ s, private s = false) sponsors.
Proof.
  intros Hm.
  destruct (main_Return_inv _ _ _ _ Hm) as (ts & sponsors & tt & Hs & Ht & _ & ->).
  exists ts, sponsors, (ts ++ tt). split; [done|].
  split.
  { unfold reports. by rewrite total_amount_sum, public_roster_entries, <- app_assoc. }
  split.
  { assert (ts = trace (get_sponsors w fuel)) as -> by by rewrite Hs.
    assert (tt = trace (for_each (INSIDERS_TEAMS cfg)
                          (reconcile_team w fuel (eligible_users cfg sponsors)))) as ->
      by by rewrite Ht.
    apply Forall_app. split; [apply trace_get_sponsors_loop; intros ? []|].
    apply trace_for_each. intros [org team] _.
    apply trace_reconcile_team; intros; intros []. }
  split.
  { intros a. rewrite list_elem_of_fmap. split.
    - intros (s & -> & Hin). apply list_elem_of_filter in Hin as [? ?]. by exists s.
    - intros (s & ? & ? & ->). exists s. split; [done|]. by apply list_elem_of_filter. }
  split.
  { intros before s after ->. rewrite !sum_amounts_app, !length_app. simpl. lia. }
  destruct (totals_split (λ s, private s = true) sponsors) as [Htotal Hcount].
  rewrite !total_amount_sum in Htotal.
  split; [done|]. split; [done|]. split; [|done].
  clear. induction sponsors as [|s sponsors IH]; [done|].
  simpl. by rewrite IH.
Qed.

(** ** One-time payments *)

Lemma post_process_cons (w : World) (item : Node) (items : list Node)
    (sponsors : list Sponsor) :
  post_process w (item :: items) sponsors
  = if isOneTimePayment item then post_process w items sponsors
    else sponsor ← sponsor_of_item w item; post_process w items (sponsors ++ [sponsor]).
Proof. done. Qed.

(** The one-time items of a page are passed over. *)
Lemma post_process_recurring (w : World) (items : list Node) (sponsors : list Sponsor) :
  post_process w items sponsors = post_process w (recurring items) sponsors.
Proof.
  revert sponsors. induction items as [|item items IH]; intros sponsors; [done|].
  unfold recurring. rewrite post_process_cons. destruct (isOneTimePayment item) eqn:Hone.
  - rewrite filter_cons_False by congruence. apply IH.
  - rewrite filter_cons_True by done. rewrite post_process_cons, Hone.
    apply bind_ext. intros sponsor. apply IH.
Qed.

(** When the timestamps of the other items parse, the page adds their
    sponsors, in order. *)
Lemma post_process_parsed (w : World) (items : list Node) (sponsors : list Sponsor)
    (dates : Node → datetime) :
  (∀ item, item ∈ recurring items → strptime w (createdAt item) = Some (dates item)) →
  post_process w items sponsors
  = mret (sponsors ++ ((λ item, build_sponsor item (dates item)) <$> recurring items)).
Proof.
  revert sponsors. induction items as [|item items IH]; intros sponsors Hdates.
  - simpl. by rewrite app_nil_r.
  - unfold recurring in *. rewrite post_process_cons.
    destruct (isOneTimePayment item) eqn:Hone.
    + rewrite filter_cons_False in * by congruence. by apply IH.
    + rewrite filter_cons_True in * by done.
      unfold sponsor_of_item. rewrite (Hdates item) by left. rewrite mret_bind.
      rewrite IH by (intros i Hi; apply Hdates; by right).
      by rewrite fmap_cons, <- app_assoc.
Qed.

(** The first of the other items whose timestamp does not parse ends the
    page with [ValueError]. *)
Lemma post_process_ValueError (w : World) (items : list Node) (sponsors : list Sponsor) :
  (∃ item, item ∈ recurring items ∧ strptime w (createdAt item) = None) →
  post_process w items sponsors = raise ValueError.
Proof.
  revert sponsors. induction items as [|item items IH]; intros sponsors (bad & Hin & Hbad).
  - by apply elem_of_nil in Hin.
  - unfold recurring in *. rewrite post_process_cons.
    destruct (isOneTimePayment item) eqn:Hone.
    + rewrite filter_cons_False in Hin by congruence. apply IH. by exists bad.
    + rewrite filter_cons_True in Hin by done. unfold sponsor_of_item.
      destruct (strptime w (createdAt item)) as [created|] eqn:Hp; [|done].
      rewrite mret_bind. apply IH. exists bad. split; [|done].
      apply elem_of_cons in Hin as [->|Hin]; [congruence|done].
Qed.

Lemma post_process_without_one_time (w : World) (items : list Node)
    (sponsors : list Sponsor) :
  post_process (without_one_time w) items sponsors = post_process w items sponsors.
Proof.
  revert sponsors. induction items as [|item items IH]; intros sponsors; [done|].
  rewrite !post_process_cons. destruct (isOneTimePayment item); [apply IH|].
  change (sponsor_of_item (without_one_time w) item) with (sponsor_of_item w item).
  apply bind_ext. intros sponsor. apply IH.
Qed.

Lemma recurring_idemp (items : list Node) : recurring (recurring items) = recurring items.
Proof.
  unfold recurring. induction items as [|item items IH]; [done|].
  destruct (isOneTimePayment item) eqn:Hone.
  - by rewrite filter_cons_False by congruence.
  - rewrite !filter_cons_True by done. by rewrite IH.
Qed.

Lemma get_sponsors_loop_without_one_time (w : World) fuel cursor sponsors :
  get_sponsors_loop (without_one_time w) fuel cursor sponsors
  = get_sponsors_loop w fuel cursor sponsors.
Proof.
  revert cursor sponsors. induction fuel as [|fuel IH]; intros cursor sponsors; [done|].
  rewrite !get_sponsors_loop_S, !send_bind.
  change (without_one_time w (PostGraphql cursor)) with (drop_one_time (w (PostGraphql cursor))).
  destruct (w (PostGraphql cursor)) as [status body].
  match goal with
  | |- (_ :: trace ?X, _) = (_ :: trace ?Y, _) => cut (X = Y); [by intros ->|]
  end.
  destruct body as [| | |data|]; unfold drop_one_time; cbn [content status_code];
    try (apply bind_ext; intros _; apply bind_ext; intros data;
         rewrite post_process_without_one_time; apply bind_ext; intros sponsors';
         by rewrite IH).
  unfold raise_for_status, is_success; cbn [status_code]. apply bind_ext. intros _.
  unfold json_data; cbn [content]. rewrite !mret_bind. cbn [nodes hasNextPage endCursor].
  rewrite post_process_without_one_time, <- post_process_recurring.
  apply bind_ext. intros sponsors'. by rewrite IH.
Qed.

Lemma get_members_loop_without_one_time (w : World) fuel org team page members :
  get_members_loop (without_one_time w) fuel org team page members
  = get_members_loop w fuel org team page members.
Proof.
  revert page members. induction fuel as [|fuel IH]; intros page members; [done|].
  rewrite !get_members_loop_S.
  change (send (without_one_time w) (GetMembers org team page))
    with (send w (GetMembers org team page)).
  apply bind_ext. intros response. apply bind_ext. intros _.
  apply bind_ext. intros response_data. by rewrite IH.
Qed.

(** C8.  A sponsorship record flagged as a one-time payment contributes
    to no output: a page is processed as the page of its other items,
    whose sponsors it adds when their timestamps parse, and a run against
    the provider with every one-time record removed sends the same
    requests, prints the same lines and writes the same reports
    (eligibility-driven calls, roster, total and count). *)
Theorem one_time_payments_contribute_nothing (cfg : Config) (w : World) (fuel : nat) :
  (∀ items sponsors,
     post_process w items sponsors = post_process w (recurring items) sponsors)
  ∧ (∀ items sponsors dates,
       (∀ item, item ∈ recurring items →
                strptime w (createdAt item) = Some (dates item)) →
       post_process w items sponsors
       = mret (sponsors ++ ((λ item, build_sponsor item (dates item)) <$> recurring items)))
  ∧ (∀ items item, item ∈ recurring items → isOneTimePayment item = false)
  ∧ get_sponsors (without_one_time w) fuel = get_sponsors w fuel
  ∧ main cfg (without_one_time w) fuel = main cfg w fuel.
Proof.
  split; [apply post_process_recurring|]. split; [apply post_process_parsed|].
  split; [intros items item Hin; by apply list_elem_of_filter in Hin as [? _]|].
  split; [apply get_sponsors_loop_without_one_time|].
  unfold main, get_sponsors. rewrite get_sponsors_loop_without_one_time.
  apply bind_ext. intros sponsors. cbv zeta.
  rewrite (for_each_ext _ (reconcile_team (without_one_time w) fuel _)
             (reconcile_team w fuel (eligible_users cfg sponsors))); [done|].
  intros [org team]. unfold reconcile_team, get_members.
  by rewrite get_members_loop_without_one_time.
Qed.

(** C10.  No run sends a revoke request for a handle of the privileged
    set: whatever the provider answers and wherever the run stops, a
    [DELETE] request found in the trace of [main] names a handle outside
    [PRIVILEGED_USERS]. *)
Theorem privileged_never_revoked (cfg : Config) (w : World) (fuel : nat)
    (org team user : string) :
  Sent (DeleteMembership org team user) ∈ trace (main cfg w fuel) →
  user ∉ PRIVILEGED_USERS cfg.
Proof.
  pose (P := λ e, match e with
                  | Sent (DeleteMembership _ _ u) => u ∉ PRIVILEGED_USERS cfg
                  | _ => True
                  end).
  assert (Forall P (trace (main cfg w fuel))) as Hall.
  { apply trace_main; try done.
    intros sponsors _ _ u Hu ?. by apply Hu, privileged_eligible. }
  intros Hin. by apply (proj1 (Forall_forall _ _) Hall) in Hin.
Qed.

(** * The examples *)

(** ** The end-to-end scenario *)

Lemma scenario_sponsors_fetched :
  get_sponsors Scenario.world 1 = ([Sent (PostGraphql "null")], Return Scenario.sponsors).
Proof. vm_compute. reflexivity. Qed.

Lemma scenario_eligibility :
  eligible_users Scenario.cfg Scenario.sponsors = {["alice"; "zed"; "bob"]}.
Proof. vm_compute. reflexivity. Qed.

(** C2, the claim as stated fails: in the scenario no grant request is
    sent for the organisation handle acme, so the granted handles are not
    alice, acme and bob. *)
Lemma scenario_org_handle_not_granted :
  ("acme" ∉ granted (trace (main Scenario.cfg Scenario.world 1)))
  ∧ (granted (trace (main Scenario.cfg Scenario.world 1)) ≠ {["alice"; "acme"; "bob"]}).
Proof.
  assert ("acme" ∉ granted (trace (main Scenario.cfg Scenario.world 1))) as Hout
    by (vm_compute; intros [=]).
  split; [done|]. intros Heq. apply Hout. rewrite Heq. vm_compute. exact eq_refl.
Qed.

(** C2, as amended.  With the sponsors alice (individual, 10, public) and
    acme (organisation, 5, public), the expansion of acme to bob, the
    privileged handle zed, the threshold 4 and a membership snapshot of zed
    and carol, however it is divided between members and invitations, the
    run sends grant requests for exactly alice and bob and a revoke
    request for exactly carol, each once. *)
Theorem scenario_grants_and_revokes (w : World) (fuel : nat)
    (ts tm ti : list event) (confirmed invited : gset string) :
  get_sponsors w fuel = (ts, Return Scenario.sponsors) →
  get_members w fuel Scenario.org Scenario.team = (tm, Return confirmed) →
  get_invited w Scenario.org Scenario.team = (ti, Return invited) →
  confirmed ∪ invited = {["zed"; "carol"]} →
  (∀ user, provider_error_body (w (PutMembership Scenario.org Scenario.team user))) →
  (∀ user, provider_error_body (w (DeleteMembership Scenario.org Scenario.team user))) →
  let run := main Scenario.cfg w fuel in
  (reports_writable w → result run = Return ())
  ∧ granted (trace run) = {["alice"; "bob"]}
  ∧ revoked (trace run) = {["carol"]}
  ∧ length (grant_calls (trace run)) = 2%nat
  ∧ length (revoke_calls (trace run)) = 1%nat.
Proof.
  intros Hs Hm Hi Heq Hput Hdel run. subst run.
  destruct (main_single_team Scenario.cfg w fuel Scenario.org Scenario.team
              _ _ _ _ _ _ eq_refl Hs Hm Hi Hput Hdel) as (Hg & Hr & Hgl & Hrl & Hres).
  rewrite Hg, Hr, Hgl, Hrl, Heq, scenario_eligibility.
  split; [done|]. vm_compute. split_and!; exact eq_refl.
Qed.

Lemma scenario_grants_and_revokes_witness :
  let run := main Scenario.cfg (reversed Scenario.world) 1 in
  result run = Return ()
  ∧ granted (trace run) = {["alice"; "bob"]}
  ∧ revoked (trace run) = {["carol"]}
  ∧ length (grant_calls (trace run)) = 2%nat
  ∧ length (revoke_calls (trace run)) = 1%nat.
Proof.
  destruct (scenario_grants_and_revokes (reversed Scenario.world) 1
              [Sent (PostGraphql "null")]
              [Sent (GetMembers Scenario.org Scenario.team 1)]
              [Sent (GetInvitations Scenario.org Scenario.team)]
              {["zed"; "carol"]} ∅) as [Hres Hcalls].
  - vm_compute. reflexivity.
  - vm_compute. reflexivity.
  - vm_compute. reflexivity.
  - vm_compute. reflexivity.
  - intros user. left. reflexivity.
  - intros user. left. reflexivity.
  - split; [|exact Hcalls]. apply Hres. split; reflexivity.
Defined.

Lemma eligible_users_is_union_witness :
  expand_orgs Scenario.cfg ["acme"; "acme"]
    (PRIVILEGED_USERS Scenario.cfg ∪ direct_users Scenario.cfg Scenario.sponsors)
  = eligible_users Scenario.cfg Scenario.sponsors.
Proof.
  apply (proj2 (proj2 (eligible_users_is_union Scenario.cfg Scenario.sponsors))).
  intros o.
  assert (eligible_orgs Scenario.cfg Scenario.sponsors = {["acme"]}) as ->
    by (vm_compute; reflexivity).
  rewrite elem_of_singleton, !elem_of_cons, elem_of_nil. tauto.
Defined.

(** C6, the claim as stated fails: the organisation sponsor acme pays 5,
    at least the threshold 4, and its handle is neither directly eligible
    nor in the final eligibility set. *)
Lemma organisation_sponsor_not_directly_eligible :
  recorded Scenario.acme ∈ Scenario.sponsors
  ∧ MIN_AMOUNT Scenario.cfg ≤ amount (recorded Scenario.acme)
  ∧ (name (account (recorded Scenario.acme))
       ∉ direct_users Scenario.cfg Scenario.sponsors)
  ∧ (name (account (recorded Scenario.acme))
       ∉ eligible_users Scenario.cfg Scenario.sponsors)
  ∧ ¬ threshold_property Scenario.cfg Scenario.sponsors.
Proof.
  assert (recorded Scenario.acme ∈ Scenario.sponsors) as Hin
    by (right; left).
  assert (name (account (recorded Scenario.acme))
            ∉ direct_users Scenario.cfg Scenario.sponsors) as Hout
    by (vm_compute; intros [=]).
  split; [done|]. split; [by vm_compute|]. split; [done|].
  split; [vm_compute; intros [=]|].
  intros Hclaim. apply Hout, (Hclaim _ Hin). by vm_compute.
Qed.

(** The other direction fails on two records of one handle: alice is
    directly eligible through her record at 10 while her record at 2 is
    below the threshold. *)
Lemma second_record_below_threshold :
  ¬ threshold_property Scenario.cfg Scenario.two_tiers.
Proof.
  intros Hclaim.
  assert (recorded Scenario.alice_before ∈ Scenario.two_tiers) as Hin by left.
  apply (Hclaim _) in Hin. revert Hin. vm_compute. intros [_ Hle].
  by destruct Hle.
Qed.

Lemma direct_eligibility_threshold_witness :
  "alice" ∈ direct_users Scenario.cfg Scenario.sponsors
  ∧ "alice" ∉ direct_users Scenario.cfg [recorded Scenario.alice_before].
Proof.
  split.
  - apply (proj1 (proj2 (direct_eligibility_threshold Scenario.cfg Scenario.sponsors))
             (recorded Scenario.alice)); [left|reflexivity|by vm_compute].
  - apply (proj2 (proj2 (direct_eligibility_threshold Scenario.cfg
                           [recorded Scenario.alice_before]))).
    intros s Hs _. apply list_elem_of_singleton in Hs as ->. by vm_compute.
Defined.

(** ** Member listings of more than one page *)

(** C1, on a listing of two pages: [get_members] fetches both pages and
    returns the handles of the second one only, not the union of the
    handles of the pages it fetched. *)
Theorem get_members_keeps_last_page_only :
  let run := get_members Paged.world 3 Paged.org Paged.team in
  trace run = [Sent (GetMembers Paged.org Paged.team 1);
               Sent (GetMembers Paged.org Paged.team 2)]
  ∧ result run = Return {[Paged.handle 100]}
  ∧ size (members_fetched Paged.world (trace run)) = 101%nat
  ∧ Paged.handle 0 ∈ members_fetched Paged.world (trace run)
  ∧ (Paged.handle 0 ∉ ({[Paged.handle 100]} : gset string))
  ∧ result run ≠ Return (members_fetched Paged.world (trace run)).
Proof.
  cbv zeta.
  assert (result (get_members Paged.world 3 Paged.org Paged.team)
          = Return {[Paged.handle 100]}) as Hlast by (vm_compute; exact eq_refl).
  assert (Paged.handle 0 ∈ members_fetched Paged.world
            (trace (get_members Paged.world 3 Paged.org Paged.team))) as Hfirst
    by (vm_compute; exact eq_refl).
  assert (Paged.handle 0 ∉ ({[Paged.handle 100]} : gset string)) as Hout
    by (vm_compute; intros [=]).
  split; [vm_compute; exact eq_refl|]. split; [done|].
  split; [vm_compute; exact eq_refl|]. split; [done|]. split; [done|].
  rewrite Hlast. intros Heq. apply Hout.
  assert (∀ a b : gset string, Return a = Return b → a = b) as Return_inj
    by (by intros a b [=]).
  by rewrite (Return_inj _ _ Heq).
Qed.

(** C4, on the same listing: user0 is on the first page of the
    confirmed-member listing, the run fetches that page, and it sends a
    grant request for user0. *)
Theorem listed_member_granted_again :
  let run := main repository_config Paged.world 3 in
  result run = Return ()
  ∧ content (Paged.world (GetMembers Paged.org Paged.team 1)) = JsonUsers Paged.first_page
  ∧ mkUser (Paged.handle 0) ∈ Paged.first_page
  ∧ Sent (GetMembers Paged.org Paged.team 1) ∈ trace run
  ∧ Sent (PutMembership Paged.org Paged.team (Paged.handle 0)) ∈ trace run.
Proof.
  cbv zeta. split; [vm_compute; reflexivity|]. split; [reflexivity|].
  split; [left|]. split; vm_compute; repeat constructor.
Qed.

(** ** Failing mutations *)

Lemma undecodable_error_body_aborts_run_witness :
  result (main Scenario.cfg (reversed Scenario.outage) 1) = Raise JSONDecodeError
  ∧ (∃ user,
       user ∈ ({["alice"; "bob"]} : gset string)
       ∧ grant_calls (trace (main Scenario.cfg (reversed Scenario.outage) 1))
         = [(Scenario.org, Scenario.team, user)])
  ∧ Forall (λ e, ¬ is_write e) (trace (main Scenario.cfg (reversed Scenario.outage) 1)).
Proof.
  destruct (undecodable_error_body_aborts_run Scenario.cfg (reversed Scenario.outage) 1
              Scenario.org Scenario.team
              [Sent (PostGraphql "null")]
              [Sent (GetMembers Scenario.org Scenario.team 1)]
              [Sent (GetInvitations Scenario.org Scenario.team)]
              Scenario.sponsors {["zed"; "carol"]} ∅)
    as (Hres & (user & Hdue & Hcalls & _) & Hwrites).
  - reflexivity.
  - vm_compute. exact eq_refl.
  - vm_compute. exact eq_refl.
  - vm_compute. exact eq_refl.
  - intros user. split; reflexivity.
  - intros user. left. reflexivity.
  - vm_compute. intros [=].
  - split; [exact Hres|]. split; [|exact Hwrites].
    exists user. split; [|exact Hcalls].
    revert Hdue. rewrite scenario_eligibility.
    assert (toGrant ({["zed"; "carol"]} ∪ ∅) {["alice"; "zed"; "bob"]}
            = ({["alice"; "bob"]} : gset string)) as -> by (vm_compute; exact eq_refl).
    exact id.
Defined.

Lemma rejecting_well_formed (r : request) : provider_error_body (Scenario.rejecting r).
Proof.
  destruct r as [c|o t [|p]|o t|o t user|o t user]; try (left; reflexivity).
  unfold Scenario.rejecting, provider, serving. cbn [respond].
  destruct (decide (user = "alice")).
  - right; right. by exists {[ "message" := "Not Found";
                               "documentation_url" := "https://docs.github.com/rest" ]},
                            "Not Found", "https://docs.github.com/rest".
  - left. reflexivity.
Defined.


(** ** A settled team, reports, privileged handles *)

Lemma full_page_team_granted_again_witness :
  size (eligible_users repository_config Settled.sponsors) = 100%nat
  ∧ logins Settled.listing = eligible_users repository_config Settled.sponsors
  ∧ granted (trace (main repository_config Settled.world 2))
    = eligible_users repository_config Settled.sponsors
  ∧ length (grant_calls (trace (main repository_config Settled.world 2))) = 100%nat
  ∧ result (main repository_config Settled.world 2) = Return ().
Proof.
  assert (size (eligible_users repository_config Settled.sponsors) = 100%nat) as Hsize
    by (vm_compute; exact eq_refl).
  assert (logins Settled.listing = eligible_users repository_config Settled.sponsors)
    as Hlisting by (vm_compute; exact eq_refl).
  destruct (full_page_team_granted_again repository_config Settled.world 2
              Settled.org Settled.team
              [Sent (PostGraphql "null")]
              [Sent (GetInvitations Settled.org Settled.team)]
              Settled.sponsors Settled.listing)
    as (_ & _ & _ & Hg & Hgl & _ & _ & _ & Hres).
  - reflexivity.
  - vm_compute. exact eq_refl.
  - reflexivity.
  - reflexivity.
  - vm_compute. exact eq_refl.
  - reflexivity.
  - reflexivity.
  - vm_compute. exact eq_refl.
  - exact Hlisting.
  - intros user. left. reflexivity.
  - intros user. left. reflexivity.
  - lia.
  - split; [exact Hsize|]. split; [exact Hlisting|]. split; [exact Hg|].
    split; [by rewrite Hgl|]. apply Hres. split; reflexivity.
Defined.

Lemma second_run_is_idle_witness :
  result (main Scenario.cfg Scenario.settled 1) = Return ()
  ∧ grant_calls (trace (main Scenario.cfg Scenario.settled 1)) = []
  ∧ revoke_calls (trace (main Scenario.cfg Scenario.settled 1)) = [].
Proof.
  destruct (second_run_is_idle Scenario.cfg Scenario.settled 1
              [Sent (PostGraphql "null")] Scenario.sponsors)
    as (_ & Hres & Hg & Hr).
  - vm_compute. exact eq_refl.
  - intros o t Hin. apply list_elem_of_singleton in Hin. injection Hin as -> ->.
    exists [Sent (GetMembers Scenario.org Scenario.team 1)], {["zed"; "alice"; "bob"]},
           [Sent (GetInvitations Scenario.org Scenario.team)], ∅.
    split; [vm_compute; exact eq_refl|]. split; vm_compute; exact eq_refl.
  - split; [|exact (conj Hg Hr)]. apply Hres. split; reflexivity.
Defined.

Lemma one_time_payments_contribute_nothing_witness :
  main Scenario.cfg (without_one_time Scenario.with_one_time) 1
  = main Scenario.cfg Scenario.world 1
  ∧ main Scenario.cfg Scenario.with_one_time 1 = main Scenario.cfg Scenario.world 1
  ∧ isOneTimePayment Scenario.alice = false.
Proof.
  destruct (one_time_payments_contribute_nothing Scenario.cfg Scenario.with_one_time 1)
    as (_ & _ & Hrec & _ & Hmain).
  assert (main Scenario.cfg (without_one_time Scenario.with_one_time) 1
          = main Scenario.cfg Scenario.world 1) as Hsame
    by (vm_compute; exact eq_refl).
  split; [done|]. split; [by rewrite <- Hmain|].
  apply (Hrec [Scenario.alice; Scenario.oscar; Scenario.acme]). left.
Defined.

Lemma reports_follow_privacy_witness :
  ∃ t',
    trace (main Scenario.cfg Scenario.with_private 1)
    = t' ++ [Wrote "numbers.json" (Numbers 22 3);
             Wrote "sponsors.json"
               (Roster [as_dict (account (recorded Scenario.alice));
                        as_dict (account (recorded Scenario.acme))])]
    ∧ Forall (λ e, ¬ is_write e) t'.
Proof.
  destruct (reports_follow_privacy Scenario.cfg Scenario.with_private 1
              (trace (main Scenario.cfg Scenario.with_private 1)))
    as (ts & sponsors & t' & Hs & Ht & Hw & _).
  - vm_compute. exact eq_refl.
  - exists t'. split; [|done]. rewrite Ht.
    assert (get_sponsors Scenario.with_private 1
            = ([Sent (PostGraphql "null")],
               Return [recorded Scenario.alice; recorded Scenario.dana;
                       recorded Scenario.acme])) as Hs'
      by (vm_compute; exact eq_refl).
    rewrite Hs' in Hs. injection Hs as _ <-. vm_compute. exact eq_refl.
Defined.

Lemma privileged_never_revoked_witness :
  "zed" ∈ logins Scenario.current
  ∧ ("carol" ∉ PRIVILEGED_USERS Scenario.cfg)
  ∧ revoke_calls (trace (main Scenario.cfg Scenario.world 1))
    = [(Scenario.org, Scenario.team, "carol")].
Proof.
  split; [vm_compute; exact eq_refl|]. split; [|vm_compute; exact eq_refl].
  apply (privileged_never_revoked Scenario.cfg Scenario.world 1
           Scenario.org Scenario.team "carol").
  vm_compute. repeat constructor.
Defined.

(** * Further properties of the code *)

(** ** Eligibility (lines 199-203) *)

(** X1.  With no sponsor at all the eligibility set is the privileged set,
    whatever [ORG_USERS] holds. *)
Theorem eligible_users_no_sponsors (cfg : Config) :
  eligible_users cfg [] = PRIVILEGED_USERS cfg
  ∧ eligible_orgs cfg [] = ∅.
Proof.
  split; [|done]. apply set_eq. intros h. rewrite elem_of_eligible_users.
  unfold in_eligibility_spec. split; [|by right; left].
  intros [(s & Hin & _)|[?|(s & Hin & _)]]; [|done|]; by apply elem_of_nil in Hin.
Qed.

(** X2.  The eligibility set depends on which sponsor records there are,
    not on their order or on how often a record occurs. *)
Theorem eligible_users_same_records (cfg : Config) (sponsors sponsors' : list Sponsor) :
  (∀ s, s ∈ sponsors ↔ s ∈ sponsors') →
  eligible_users cfg sponsors = eligible_users cfg sponsors'.
Proof.
  intros Hsame. apply set_eq. intros h. rewrite !elem_of_eligible_users.
  unfold in_eligibility_spec.
  split; (intros [(s & Hin & ?)|[?|(s & Hin & ?)]];
          [left; exists s|by right; left|right; right; exists s]);
    (split; [by apply Hsame|done]).
Qed.

Lemma eligible_users_same_records_witness :
  eligible_users Scenario.cfg
    [recorded Scenario.acme; recorded Scenario.alice;
     recorded Scenario.acme]
  = eligible_users Scenario.cfg Scenario.sponsors.
Proof.
  apply (eligible_users_same_records Scenario.cfg). intros s.
  unfold Scenario.sponsors. rewrite !elem_of_cons, elem_of_nil. tauto.
Defined.

(** X3.  Eligibility only grows with more sponsor records and only
    shrinks with a higher threshold. *)
Theorem eligible_users_monotone (cfg : Config) (sponsors sponsors' : list Sponsor)
    (min_amount : Z) :
  (sponsors ⊆ sponsors' → eligible_users cfg sponsors ⊆ eligible_users cfg sponsors')
  ∧ (MIN_AMOUNT cfg ≤ min_amount →
     eligible_users (with_min_amount cfg min_amount) sponsors
     ⊆ eligible_users cfg sponsors).
Proof.
  split.
  - intros Hsub h. rewrite !elem_of_eligible_users. unfold in_eligibility_spec.
    intros [(s & Hin & ?)|[?|(s & Hin & ?)]];
      [left; exists s|by right; left|right; right; exists s];
      (split; [by apply Hsub|done]).
  - intros Hle h. rewrite !elem_of_eligible_users. unfold in_eligibility_spec. simpl.
    intros [(s & Hin & Ho & Ha & Hn)|[?|(s & Hin & Ho & Ha & Hh)]];
      [left; exists s|by right; left|right; right; exists s];
      (split; [done|]); (split; [done|]); (split; [lia|done]).
Qed.

Lemma eligible_users_monotone_witness :
  eligible_users Scenario.cfg [recorded Scenario.alice]
    ⊆ eligible_users Scenario.cfg Scenario.sponsors
  ∧ eligible_users (with_min_amount Scenario.cfg 6) Scenario.sponsors
    ⊆ eligible_users Scenario.cfg Scenario.sponsors.
Proof.
  split.
  - apply (proj1 (eligible_users_monotone Scenario.cfg _ Scenario.sponsors 0)).
    intros s Hin. apply list_elem_of_singleton in Hin as ->. left.
  - apply (proj2 (eligible_users_monotone Scenario.cfg Scenario.sponsors [] 6)).
    by vm_compute.
Defined.

(** X4.  When [ORG_USERS] is empty, as in the repository, a sponsoring
    organisation makes nobody eligible: the eligibility set is the
    individual sponsors at or above the threshold and the privileged
    handles. *)
Theorem organisations_expand_to_nobody (cfg : Config) (sponsors : list Sponsor) :
  ORG_USERS cfg = ∅ →
  eligible_users cfg sponsors = direct_users cfg sponsors ∪ PRIVILEGED_USERS cfg.
Proof.
  intros Hempty. apply set_eq. intros h.
  rewrite elem_of_eligible_users, elem_of_union, elem_of_direct_users.
  unfold in_eligibility_spec. rewrite Hempty.
  split; [|tauto]. intros [?|[?|(s & _ & _ & _ & Hh)]]; [tauto|tauto|].
  rewrite lookup_empty in Hh. by apply not_elem_of_empty in Hh.
Qed.

Lemma organisations_expand_to_nobody_witness :
  eligible_users repository_config Scenario.sponsors = {["alice"; "15r10nk"]}.
Proof.
  rewrite (organisations_expand_to_nobody repository_config Scenario.sponsors eq_refl).
  vm_compute. exact eq_refl.
Defined.

(** ** get_sponsors (lines 87-131) *)

Lemma get_sponsors_loop_pages (w : World) (dates : Node → datetime) (n : nat) :
  ∀ (fuel : nat) (c0 : string) (sponsors : list Sponsor) (pages : nat → Sponsorships),
    (∀ i, (i ≤ n)%nat →
          is_success (w (PostGraphql (cursor_at c0 pages i))) = true
          ∧ content (w (PostGraphql (cursor_at c0 pages i))) = JsonSponsorships (pages i)) →
    (∀ i item, (i ≤ n)%nat → item ∈ recurring (nodes (pages i)) →
               strptime w (createdAt item) = Some (dates item)) →
    (∀ i, (i < n)%nat → hasNextPage (pages i) = true) →
    hasNextPage (pages n) = false →
    (n < fuel)%nat →
    get_sponsors_loop w fuel c0 sponsors
    = ((λ i, Sent (PostGraphql (cursor_at c0 pages i))) <$> seq 0 (S n),
       Return (sponsors
               ++ concat ((λ i, (λ item, build_sponsor item (dates item))
                                  <$> recurring (nodes (pages i)))
                            <$> seq 0 (S n)))).
Proof.
  induction n as [|n IH]; intros fuel c0 sponsors pages Hserved Hdates Hnext Hlast Hfuel;
    (destruct fuel as [|fuel]; [lia|]); rewrite get_sponsors_loop_S, send_bind;
    destruct (Hserved 0%nat ltac:(lia)) as [Hs Hc]; cbn [cursor_at] in Hs, Hc;
    unfold raise_for_status, json_data; rewrite Hs, Hc, mret_bind, mret_bind;
    rewrite (post_process_parsed w _ _ dates) by (intros item; apply Hdates; lia);
    rewrite mret_bind.
  - rewrite Hlast. simpl. by rewrite app_nil_r.
  - rewrite (Hnext 0%nat) by lia.
    rewrite (IH fuel _ _ (λ i, pages (S i))).
    + rewrite trace_pair, result_pair.
      change (seq 0 (S (S n))) with (0%nat :: seq 1 (S n)).
      rewrite !fmap_cons, concat_cons, <- (fmap_S_seq 0 (S n)), <- !list_fmap_compose.
      rewrite <- app_assoc. f_equal. f_equal.
      apply list_fmap_ext. intros _ i _. by destruct i.
    + intros i Hi. destruct (Hserved (S i) ltac:(lia)) as [Hs' Hc']. by destruct i.
    + intros i item Hi. apply Hdates. lia.
    + intros i Hi. apply Hnext. lia.
    + done.
    + lia.
Qed.

(** X5.  When the provider serves [n + 1] sponsorship pages, each but the
    last announcing a next page, and the timestamp of every item not
    flagged one-time parses, [get_sponsors] returns after [n + 1]
    requests: the first with the cursor [null], each later one with the
    end cursor of the page before between double quotes; the result is the
    sponsors built from the items not flagged one-time and their parsed
    timestamps, page after page, in the order served. *)
Theorem get_sponsors_follows_cursors (w : World) (n fuel : nat)
    (pages : nat → Sponsorships) (dates : Node → datetime) :
  (∀ i, (i ≤ n)%nat →
        is_success (w (PostGraphql (cursor_at "null" pages i))) = true
        ∧ content (w (PostGraphql (cursor_at "null" pages i)))
          = JsonSponsorships (pages i)) →
  (∀ i item, (i ≤ n)%nat → item ∈ recurring (nodes (pages i)) →
             strptime w (createdAt item) = Some (dates item)) →
  (∀ i, (i < n)%nat → hasNextPage (pages i) = true) →
  hasNextPage (pages n) = false →
  (n < fuel)%nat →
  get_sponsors w fuel
  = ((λ i, Sent (PostGraphql (cursor_at "null" pages i))) <$> seq 0 (S n),
     Return (concat ((λ i, (λ item, build_sponsor item (dates item))
                             <$> recurring (nodes (pages i)))
                       <$> seq 0 (S n)))).
Proof.
  intros Hserved Hdates Hnext Hlast Hfuel. unfold get_sponsors.
  by rewrite (get_sponsors_loop_pages w dates n fuel "null" [] pages).
Qed.

Lemma get_sponsors_follows_cursors_witness :
  get_sponsors Fetching.cursored 2
  = ([Sent (PostGraphql "null"); Sent (PostGraphql (quoted "Y3Vyc29yOjE="))],
     Return [build_sponsor Scenario.alice (mkDatetime 2024 3 1 9 30 0);
             build_sponsor Scenario.acme (mkDatetime 2024 2 11 17 5 0)]).
Proof.
  rewrite (get_sponsors_follows_cursors Fetching.cursored 1 2 Fetching.pages
             (λ item, if decide (createdAt item = "2024-03-01T09:30:00Z")
                      then mkDatetime 2024 3 1 9 30 0
                      else mkDatetime 2024 2 11 17 5 0)).
  - vm_compute. reflexivity.
  - intros [|[|i]] Hi; [split; reflexivity|split; reflexivity|lia].
  - intros [|[|i]] item Hi Hin; [| |lia].
    + apply list_elem_of_singleton in Hin as ->. vm_compute. reflexivity.
    + apply list_elem_of_singleton in Hin as ->. vm_compute. reflexivity.
  - intros [|i] Hi; [reflexivity|lia].
  - reflexivity.
  - lia.
Defined.

(** When every timestamp of a page parses, the page is processed to the
    end. *)
Lemma post_process_Return (w : World) (items : list Node) (sponsors : list Sponsor) :
  (∀ item, item ∈ recurring items → strptime w (createdAt item) ≠ None) →
  ∃ sponsors', post_process w items sponsors = mret sponsors'.
Proof.
  intros Hparse. eexists.
  apply (post_process_parsed w items sponsors
           (λ item, default (mkDatetime 1970 1 1 0 0 0) (strptime w (createdAt item)))).
  intros item Hin. specialize (Hparse item Hin).
  by destruct (strptime w (createdAt item)).
Qed.

(** X6.  The loop of [get_sponsors] has no bound of its own: against a
    provider whose every page announces a next one and holds parsable
    timestamps only, it never returns; each further unit of fuel is one
    further request. *)
Theorem get_sponsors_never_returns (w : World) (fuel : nat) :
  (∀ cursor, is_success (w (PostGraphql cursor)) = true
             ∧ ∃ data, content (w (PostGraphql cursor)) = JsonSponsorships data
                       ∧ hasNextPage data = true
                       ∧ ∀ item, item ∈ recurring (nodes data) →
                                 strptime w (createdAt item) ≠ None) →
  result (get_sponsors w fuel) = OutOfFuel
  ∧ length (trace (get_sponsors w fuel)) = fuel
  ∧ Forall is_query (trace (get_sponsors w fuel)).
Proof.
  intros Hnext. unfold get_sponsors. generalize "null". generalize (@nil Sponsor).
  induction fuel as [|fuel IH]; intros sponsors cursor; [by repeat split|].
  rewrite get_sponsors_loop_S, send_bind, trace_pair, result_pair.
  destruct (Hnext cursor) as (Hs & data & Hc & Hn & Hparse).
  unfold raise_for_status, json_data. rewrite Hs, Hc, mret_bind, mret_bind.
  destruct (post_process_Return w (nodes data) sponsors Hparse) as [sponsors' ->].
  rewrite mret_bind, Hn.
  destruct (IH sponsors' (quoted (endCursor data))) as (Hr & Hl & Hq).
  split; [done|]. split; [simpl; by rewrite Hl|]. by constructor.
Qed.

Lemma get_sponsors_never_returns_witness :
  result (get_sponsors Fetching.endless 7) = OutOfFuel
  ∧ length (trace (get_sponsors Fetching.endless 7)) = 7%nat.
Proof.
  destruct (get_sponsors_never_returns Fetching.endless 7) as (Hr & Hl & _); [|done].
  intros cursor. split; [reflexivity|]. exists Fetching.first.
  split; [reflexivity|]. split; [reflexivity|].
  intros item Hin. apply list_elem_of_singleton in Hin as ->. by vm_compute.
Defined.

(** X23.  A sponsorship item not flagged one-time whose [createdAt] does
    not parse under the format of line 120 ends [get_sponsors] with
    [ValueError] on its page, and with it the run: nothing but the
    sponsorship query is sent and no report is written. *)
Theorem unparsable_timestamp_aborts (cfg : Config) (w : World) (fuel : nat)
    (data : Sponsorships) (item : Node) :
  is_success (w (PostGraphql "null")) = true →
  content (w (PostGraphql "null")) = JsonSponsorships data →
  item ∈ nodes data →
  isOneTimePayment item = false →
  strptime w (createdAt item) = None →
  get_sponsors w (S fuel) = ([Sent (PostGraphql "null")], Raise ValueError)
  ∧ main cfg w (S fuel) = ([Sent (PostGraphql "null")], Raise ValueError).
Proof.
  intros Hs Hc Hin Hone Hbad.
  assert (get_sponsors w (S fuel) = ([Sent (PostGraphql "null")], Raise ValueError)) as Hgs.
  { unfold get_sponsors. rewrite get_sponsors_loop_S, send_bind.
    unfold raise_for_status, json_data. rewrite Hs, Hc, mret_bind, mret_bind.
    rewrite post_process_ValueError; [done|].
    exists item. split; [|done]. by apply list_elem_of_filter. }
  split; [done|]. unfold main. by rewrite Hgs.
Qed.

Lemma unparsable_timestamp_aborts_witness :
  main Scenario.cfg Fetching.undated 1 = ([Sent (PostGraphql "null")], Raise ValueError).
Proof.
  apply (unparsable_timestamp_aborts Scenario.cfg Fetching.undated 0
           {| nodes := [Scenario.acme; Fetching.no_zone];
              hasNextPage := false; endCursor := "" |} Fetching.no_zone).
  - reflexivity.
  - reflexivity.
  - right. left.
  - reflexivity.
  - vm_compute. reflexivity.
Defined.

(** ** get_members (lines 134-149) *)

(** X7.  When the provider serves [n] pages of at least 100 members each
    and then a shorter one, [get_members] requests the pages [1] to
    [n + 1] in order and returns the handles of the last, shorter page;
    in particular a single page of fewer than 100 members is returned
    whole, and a team of exactly 100 members is returned as the empty
    set. *)
Theorem get_members_pages (w : World) (org team : string) (n fuel : nat)
    (pages : nat → list User) :
  (∀ i, (i ≤ n)%nat →
        is_success (w (GetMembers org team (1 + i)%nat)) = true
        ∧ content (w (GetMembers org team (1 + i)%nat)) = JsonUsers (pages i)) →
  (∀ i, (i < n)%nat → (100 ≤ length (pages i))%nat) →
  (length (pages n) < 100)%nat →
  (n < fuel)%nat →
  get_members w fuel org team
  = ((λ i, Sent (GetMembers org team (1 + i)%nat)) <$> seq 0 (S n),
     Return (logins (pages n))).
Proof.
  intros Hserved Hfull Hshort Hfuel. unfold get_members.
  by apply (get_members_loop_pages w org team n fuel 1 ∅ pages).
Qed.

Lemma get_members_pages_witness :
  get_members Scenario.world 1 Scenario.org Scenario.team
  = ([Sent (GetMembers Scenario.org Scenario.team 1)], Return {["zed"; "carol"]})
  ∧ get_members Fetching.hundred 2 Paged.org Paged.team
    = ([Sent (GetMembers Paged.org Paged.team 1);
        Sent (GetMembers Paged.org Paged.team 2)], Return ∅).
Proof.
  split.
  - rewrite (get_members_pages Scenario.world Scenario.org Scenario.team 0 1
               (λ _, Scenario.current)).
    + vm_compute. exact eq_refl.
    + intros [|i] Hi; [split; reflexivity|lia].
    + intros i Hi. lia.
    + vm_compute. lia.
    + lia.
  - rewrite (get_members_pages Fetching.hundred Paged.org Paged.team 1 2
               (λ i, match i with O => Paged.first_page | _ => [] end)).
    + vm_compute. exact eq_refl.
    + intros [|[|i]] Hi; [split; reflexivity|split; reflexivity|lia].
    + intros [|i] Hi; [vm_compute; lia|lia].
    + simpl. lia.
    + lia.
Defined.

(** X8.  The loop of [get_members] stops on a short page only: against a
    provider whose every page holds at least 100 members it never
    returns. *)
Theorem get_members_never_returns (w : World) (org team : string) (fuel : nat) :
  (∀ page, is_success (w (GetMembers org team page)) = true
           ∧ ∃ users, content (w (GetMembers org team page)) = JsonUsers users
                      ∧ (100 ≤ length users)%nat) →
  result (get_members w fuel org team) = OutOfFuel
  ∧ trace (get_members w fuel org team)
    = (λ i, Sent (GetMembers org team (1 + i)%nat)) <$> seq 0 fuel.
Proof.
  intros Hfull. unfold get_members. generalize (∅ : gset string).
  assert (∀ page members,
            result (get_members_loop w fuel org team page members) = OutOfFuel
            ∧ trace (get_members_loop w fuel org team page members)
              = (λ i, Sent (GetMembers org team (page + i)%nat)) <$> seq 0 fuel) as Hloop.
  { induction fuel as [|fuel IH]; intros page members; [done|].
    rewrite get_members_loop_S, send_bind, trace_pair, result_pair.
    destruct (Hfull page) as (Hs & users & Hc & Hlen).
    unfold raise_for_status, json_users. rewrite Hs, Hc, mret_bind, mret_bind.
    apply Nat.ltb_ge in Hlen as ->.
    destruct (IH (page + 1)%nat (members ∪ logins users)) as [Hr Ht].
    split; [done|]. rewrite Ht.
    change (seq 0 (S fuel)) with (0%nat :: seq 1 fuel).
    rewrite fmap_cons, Nat.add_0_r. f_equal.
    rewrite <- (fmap_S_seq 0 fuel), <- list_fmap_compose.
    apply list_fmap_ext. intros _ i _. simpl. do 2 f_equal. lia. }
  intros members. apply Hloop.
Qed.

Lemma get_members_never_returns_witness :
  result (get_members Fetching.endless 5 Paged.org Paged.team) = OutOfFuel.
Proof.
  apply (get_members_never_returns Fetching.endless Paged.org Paged.team 5).
  intros page. split; [reflexivity|]. exists Paged.first_page.
  split; [reflexivity|]. vm_compute. lia.
Defined.

(** ** grant and revoke (lines 162-193) *)

Lemma body_report_result (response : Response) :
  (∀ status, result (body_report response) ≠ Raise (HTTPStatusError status))
  ∧ result (body_report response) ≠ OutOfFuel.
Proof.
  unfold body_report, has_content, json_message.
  destruct (content response) as [|fields|users|data|]; try done.
  destruct (fields !! "message") as [message|]; [|done].
  by destruct (fields !! "documentation_url").
Qed.

(** X9.  Whatever the provider answers, [grant] sends one [PUT] for its
    handle and no other mutation, and never ends with the HTTP status
    error: a success prints the confirmation line alone; a failure with an
    empty body prints the diagnostic alone and returns. *)
Theorem grant_contains_status_errors (w : World) (user org team : string) :
  let response := w (PutMembership org team user) in
  grant_calls (trace (grant w user org team)) = [(org, team, user)]
  ∧ revoke_calls (trace (grant w user org team)) = []
  ∧ (∀ status, result (grant w user org team) ≠ Raise (HTTPStatusError status))
  ∧ result (grant w user org team) ≠ OutOfFuel
  ∧ (is_success response = true →
     grant w user org team
     = ([Sent (PutMembership org team user); Printed (Added user org team)], Return ()))
  ∧ (is_success response = false → content response = NoContent →
     grant w user org team
     = ([Sent (PutMembership org team user);
         Printed (CouldntAdd user org team (HTTPStatusError (status_code response)))],
        Return ())).
Proof.
  intros response. subst response. split; [apply grant_calls_grant|].
  destruct (is_success (w (PutMembership org team user))) eqn:Hs.
  - rewrite grant_success by done. by repeat split.
  - rewrite grant_failure by done. rewrite trace_pair, result_pair.
    split.
    { change (?a :: ?b :: ?t) with ([a; b] ++ t). rewrite revoke_calls_app.
      by rewrite (proj2 (printed_no_calls _ (body_report_prints _))). }
    split; [apply body_report_result|]. split; [apply body_report_result|].
    split; [done|]. intros _ Hc. unfold body_report, has_content. by rewrite Hc.
Qed.

Lemma grant_contains_status_errors_witness :
  grant Scenario.world "alice" Scenario.org Scenario.team
  = ([Sent (PutMembership Scenario.org Scenario.team "alice");
      Printed (Added "alice" Scenario.org Scenario.team)], Return ())
  ∧ grant (Fetching.terse (mkResponse 404 NoContent)) "alice" Scenario.org Scenario.team
    = ([Sent (PutMembership Scenario.org Scenario.team "alice");
        Printed (CouldntAdd "alice" Scenario.org Scenario.team (HTTPStatusError 404))],
       Return ()).
Proof.
  split.
  - apply (grant_contains_status_errors Scenario.world). reflexivity.
  - apply (grant_contains_status_errors (Fetching.terse (mkResponse 404 NoContent)));
      reflexivity.
Defined.

(** X10.  Whatever the provider answers, [revoke] sends one [DELETE] for
    its handle and no other mutation, and never ends with the HTTP status
    error: a success prints the confirmation line alone; a failure with an
    empty body prints the diagnostic alone and returns. *)
Theorem revoke_contains_status_errors (w : World) (user org team : string) :
  let response := w (DeleteMembership org team user) in
  revoke_calls (trace (revoke w user org team)) = [(org, team, user)]
  ∧ grant_calls (trace (revoke w user org team)) = []
  ∧ (∀ status, result (revoke w user org team) ≠ Raise (HTTPStatusError status))
  ∧ result (revoke w user org team) ≠ OutOfFuel
  ∧ (is_success response = true →
     revoke w user org team
     = ([Sent (DeleteMembership org team user); Printed (Removed user org team)],
        Return ()))
  ∧ (is_success response = false → content response = NoContent →
     revoke w user org team
     = ([Sent (DeleteMembership org team user);
         Printed (CouldntRemove user org team (HTTPStatusError (status_code response)))],
        Return ())).
Proof.
  intros response. subst response. split; [apply revoke_calls_revoke|].
  destruct (is_success (w (DeleteMembership org team user))) eqn:Hs.
  - rewrite revoke_success by done. by repeat split.
  - rewrite revoke_failure by done. rewrite trace_pair, result_pair.
    split.
    { change (?a :: ?b :: ?t) with ([a; b] ++ t). rewrite grant_calls_app.
      by rewrite (proj1 (printed_no_calls _ (body_report_prints _))). }
    split; [apply body_report_result|]. split; [apply body_report_result|].
    split; [done|]. intros _ Hc. unfold body_report, has_content. by rewrite Hc.
Qed.

Lemma revoke_contains_status_errors_witness :
  revoke Scenario.world "carol" Scenario.org Scenario.team
  = ([Sent (DeleteMembership Scenario.org Scenario.team "carol");
      Printed (Removed "carol" Scenario.org Scenario.team)], Return ())
  ∧ revoke (Fetching.terse (mkResponse 404 NoContent)) "carol" Scenario.org Scenario.team
    = ([Sent (DeleteMembership Scenario.org Scenario.team "carol");
        Printed (CouldntRemove "carol" Scenario.org Scenario.team (HTTPStatusError 404))],
       Return ()).
Proof.
  split.
  - apply (revoke_contains_status_errors Scenario.world). reflexivity.
  - apply (revoke_contains_status_errors (Fetching.terse (mkResponse 404 NoContent)));
      reflexivity.
Defined.

(** X11.  A failing grant or revoke whose body is a JSON object without
    the key [message] ends with [KeyError] on that key after the first
    diagnostic line; with [message] but without [documentation_url] it
    ends with [KeyError] on the latter, and the provider's message is not
    printed. *)
Theorem error_object_missing_key (w : World) (user org team : string)
    (fields : gmap string string) :
  (is_success (w (PutMembership org team user)) = false →
   content (w (PutMembership org team user)) = JsonObject fields →
   (fields !! "message" = None →
    grant w user org team
    = ([Sent (PutMembership org team user);
        Printed (CouldntAdd user org team
                   (HTTPStatusError (status_code (w (PutMembership org team user)))))],
       Raise (KeyError "message")))
   ∧ (is_Some (fields !! "message") → fields !! "documentation_url" = None →
      grant w user org team
      = ([Sent (PutMembership org team user);
          Printed (CouldntAdd user org team
                     (HTTPStatusError (status_code (w (PutMembership org team user)))))],
         Raise (KeyError "documentation_url"))))
  ∧ (is_success (w (DeleteMembership org team user)) = false →
     content (w (DeleteMembership org team user)) = JsonObject fields →
     (fields !! "message" = None →
      revoke w user org team
      = ([Sent (DeleteMembership org team user);
          Printed (CouldntRemove user org team
                     (HTTPStatusError (status_code (w (DeleteMembership org team user)))))],
         Raise (KeyError "message")))
     ∧ (is_Some (fields !! "message") → fields !! "documentation_url" = None →
        revoke w user org team
        = ([Sent (DeleteMembership org team user);
            Printed (CouldntRemove user org team
                       (HTTPStatusError (status_code (w (DeleteMembership org team user)))))],
           Raise (KeyError "documentation_url")))).
Proof.
  split; intros Hs Hc; (split; [intros Hm|intros [m Hm] Hd]).
  - rewrite grant_failure by done. unfold body_report, has_content, json_message.
    by rewrite Hc, Hm.
  - rewrite grant_failure by done. unfold body_report, has_content, json_message.
    by rewrite Hc, Hm, Hd.
  - rewrite revoke_failure by done. unfold body_report, has_content, json_message.
    by rewrite Hc, Hm.
  - rewrite revoke_failure by done. unfold body_report, has_content, json_message.
    by rewrite Hc, Hm, Hd.
Qed.

Lemma error_object_missing_key_witness :
  result (grant (Fetching.terse Fetching.no_message) "alice" Scenario.org Scenario.team)
  = Raise (KeyError "message")
  ∧ result (revoke (Fetching.terse Fetching.no_link) "carol" Scenario.org Scenario.team)
    = Raise (KeyError "documentation_url").
Proof.
  split.
  - rewrite (proj1 (proj1 (error_object_missing_key (Fetching.terse Fetching.no_message)
                             "alice" Scenario.org Scenario.team
                             {[ "documentation_url" := "https://docs.github.com/rest" ]})
                      eq_refl eq_refl)); [done|].
    vm_compute. exact eq_refl.
  - rewrite (proj2 (proj2 (error_object_missing_key (Fetching.terse Fetching.no_link)
                             "carol" Scenario.org Scenario.team
                             {[ "message" := "Validation Failed" ]})
                      eq_refl eq_refl)); [done| |].
    + exists "Validation Failed". vm_compute. exact eq_refl.
    + vm_compute. exact eq_refl.
Defined.

(** ** Failing fetches (lines 99, 143, 158) *)

(** X12.  When the sponsorship fetch does not return, neither does the
    run: it ends the same way, having sent sponsorship queries only: no
    listing is read, no membership is changed, no report is written. *)
Theorem sponsor_fetch_failure_aborts (cfg : Config) (w : World) (fuel : nat) :
  (∀ sponsors, result (get_sponsors w fuel) ≠ Return sponsors) →
  trace (main cfg w fuel) = trace (get_sponsors w fuel)
  ∧ (∀ e, result (get_sponsors w fuel) = Raise e → result (main cfg w fuel) = Raise e)
  ∧ result (main cfg w fuel) ≠ Return ()
  ∧ Forall is_query (trace (main cfg w fuel)).
Proof.
  intros Hfail.
  assert (Forall is_query (trace (get_sponsors w fuel))) as Hq
    by by apply trace_get_sponsors_loop.
  unfold main. destruct (get_sponsors w fuel) as [ts [sponsors|e|]].
  - by destruct (Hfail sponsors).
  - rewrite (bind_Raise _ _ ts e eq_refl). split; [done|]. split; [|done].
    by intros e' [= ->].
  - rewrite (bind_OutOfFuel _ _ ts eq_refl). by repeat split.
Qed.

Lemma sponsor_fetch_failure_aborts_witness :
  main Scenario.cfg Fetching.no_sponsors_access 1
  = ([Sent (PostGraphql "null")], Raise (HTTPStatusError 401)).
Proof.
  destruct (sponsor_fetch_failure_aborts Scenario.cfg Fetching.no_sponsors_access 1)
    as (Ht & Hr & _).
  - intros sponsors. vm_compute. intros [=].
  - specialize (Hr (HTTPStatusError 401) eq_refl).
    destruct (main Scenario.cfg Fetching.no_sponsors_access 1) as [t o].
    cbn in Ht, Hr. by subst.
Defined.

(** X13.  When the member listing of a team cannot be fetched, or the
    member listing can and the invitation listing cannot, the loop body
    for that team ends with the error of the fetch and sends no grant and
    no revoke. *)
Theorem listing_failure_skips_mutations (w : World) (fuel : nat)
    (eligible : gset string) (org team : string) (e : exn) :
  (result (get_members w fuel org team) = Raise e
   ∨ ((∃ confirmed, result (get_members w fuel org team) = Return confirmed)
      ∧ result (get_invited w org team) = Raise e)) →
  result (reconcile_team w fuel eligible (org, team)) = Raise e
  ∧ grant_calls (trace (reconcile_team w fuel eligible (org, team))) = []
  ∧ revoke_calls (trace (reconcile_team w fuel eligible (org, team))) = [].
Proof.
  assert (Forall (λ e, ¬ is_mutation e) (trace (get_members w fuel org team))) as Hgm
    by (apply trace_get_members_loop; intros ? []).
  assert (Forall (λ e, ¬ is_mutation e) (trace (get_invited w org team))) as Hgi
    by (apply trace_get_invited; intros []).
  unfold reconcile_team.
  destruct (get_members w fuel org team) as [tm om].
  destruct (get_invited w org team) as [ti oi] eqn:Hi.
  rewrite trace_pair in Hgm, Hgi. rewrite result_pair.
  intros [->|[[confirmed ->] Hinv]].
  - rewrite (bind_Raise _ _ tm e eq_refl), trace_pair, result_pair.
    split; [done|]. by apply no_mutation_no_calls.
  - rewrite result_pair in Hinv. subst oi.
    rewrite (bind_Return' (tm, Return confirmed) _ tm confirmed ti (Raise e) eq_refl);
      [|done].
    rewrite trace_pair, result_pair. split; [done|].
    apply no_mutation_no_calls, Forall_app. by split.
Qed.

Lemma listing_failure_skips_mutations_witness :
  main Scenario.cfg Fetching.no_members_access 1
  = ([Sent (PostGraphql "null"); Sent (GetMembers Scenario.org Scenario.team 1)],
     Raise (HTTPStatusError 401))
  ∧ result (reconcile_team Fetching.no_invitations_access 1 {["alice"]}
              (Scenario.org, Scenario.team)) = Raise (HTTPStatusError 401).
Proof.
  split; [vm_compute; exact eq_refl|].
  apply (listing_failure_skips_mutations Fetching.no_invitations_access 1 {["alice"]}
           Scenario.org Scenario.team (HTTPStatusError 401)).
  right. split; [eexists|]; vm_compute; exact eq_refl.
Defined.

Lemma write_reports_fails (w : World) (sponsors : list Sponsor) :
  result (write_reports w sponsors) ≠ Return () →
  result (write_reports w sponsors) = Raise OSError
  ∧ ∀ c, Wrote "sponsors.json" c ∉ trace (write_reports w sponsors).
Proof.
  unfold write_reports, write_json.
  destruct (file_write w "numbers.json"), (file_write w "sponsors.json");
    cbn; intros Hfail; try done; (split; [done|]); intros c Hin;
    repeat (apply elem_of_cons in Hin as [Hin|Hin]; [by inversion Hin|]);
    by apply elem_of_nil in Hin.
Qed.

(** X14.  A run that does not complete never writes [sponsors.json] in
    full.  It touches a report file only after the sponsorship fetch and
    the loop over the teams returned, and then it ends with the error of
    the write.  [numbers.json] is written by a run that fails at
    [sponsors.json]: the two writes are not one step. *)
Theorem incomplete_run_reports (cfg : Config) (w : World) (fuel : nat) :
  result (main cfg w fuel) ≠ Return () →
  (∀ c, Wrote "sponsors.json" c ∉ trace (main cfg w fuel))
  ∧ (Exists is_write (trace (main cfg w fuel)) →
     result (main cfg w fuel) = Raise OSError
     ∧ ∃ ts sponsors tt,
         get_sponsors w fuel = (ts, Return sponsors)
         ∧ for_each (INSIDERS_TEAMS cfg)
             (reconcile_team w fuel (eligible_users cfg sponsors)) = (tt, Return ())
         ∧ trace (main cfg w fuel) = ts ++ tt ++ trace (write_reports w sponsors)
         ∧ Forall (λ e, ¬ is_write e) (ts ++ tt))
  ∧ (file_write w "numbers.json" = Written →
     file_write w "sponsors.json" = Refused →
     ∀ ts sponsors tt,
       get_sponsors w fuel = (ts, Return sponsors) →
       for_each (INSIDERS_TEAMS cfg)
         (reconcile_team w fuel (eligible_users cfg sponsors)) = (tt, Return ()) →
       main cfg w fuel
       = (ts ++ tt ++ [Wrote "numbers.json"
                         (Numbers (total_amount sponsors) (length sponsors))],
          Raise OSError)).
Proof.
  intros Hfail.
  assert (∀ t, Forall (λ e, ¬ is_write e) t → ∀ c, Wrote "sponsors.json" c ∉ t) as Hnone.
  { intros t Ht c Hin. by apply (proj1 (Forall_forall _ _) Ht) in Hin. }
  assert (∀ t, Forall (λ e, ¬ is_write e) t → ¬ Exists is_write t) as Hex.
  { intros t Ht Hsome. apply Exists_exists in Hsome as (e & Hin & He).
    by apply (proj1 (Forall_forall _ _) Ht) in Hin. }
  split_and!.
  - assert (Forall (λ e, ¬ is_write e) (trace (get_sponsors w fuel))) as Hq
      by (apply trace_get_sponsors_loop; intros ? []).
    destruct (get_sponsors w fuel) as [ts [sponsors|e|]] eqn:Hs.
    + destruct (for_each (INSIDERS_TEAMS cfg)
                  (reconcile_team w fuel (eligible_users cfg sponsors))) as [tt o] eqn:Ht.
      assert (Forall (λ e, ¬ is_write e) tt) as Htt.
      { change tt with (trace (tt, o)). rewrite <- Ht.
        apply trace_for_each. intros [org team] _.
        apply trace_reconcile_team; intros; intros []. }
      rewrite (main_fetched _ _ _ _ _ _ _ Hs Ht) in Hfail |- *.
      destruct o as [[]| |]; rewrite trace_pair;
        [|apply Hnone, Forall_app; by split..].
      rewrite result_pair in Hfail. apply write_reports_fails in Hfail as [_ Hw].
      intros c Hin. rewrite !elem_of_app in Hin.
      destruct Hin as [Hin|[Hin|Hin]];
        [by apply (Hnone ts Hq c)|by apply (Hnone tt Htt c)|by apply (Hw c)].
    + unfold main. rewrite Hs, (bind_Raise _ _ ts e eq_refl). by apply Hnone.
    + unfold main. rewrite Hs, (bind_OutOfFuel _ _ ts eq_refl). by apply Hnone.
  - intros Hsome.
    assert (Forall (λ e, ¬ is_write e) (trace (get_sponsors w fuel))) as Hq
      by (apply trace_get_sponsors_loop; intros ? []).
    destruct (get_sponsors w fuel) as [ts [sponsors|e|]] eqn:Hs.
    + destruct (for_each (INSIDERS_TEAMS cfg)
                  (reconcile_team w fuel (eligible_users cfg sponsors))) as [tt o] eqn:Ht.
      assert (Forall (λ e, ¬ is_write e) tt) as Htt.
      { change tt with (trace (tt, o)). rewrite <- Ht.
        apply trace_for_each. intros [org team] _.
        apply trace_reconcile_team; intros; intros []. }
      rewrite (main_fetched _ _ _ _ _ _ _ Hs Ht) in Hfail, Hsome |- *.
      destruct o as [[]| |]; rewrite trace_pair in Hsome;
        [|exfalso; revert Hsome; apply Hex, Forall_app; by split..].
      rewrite result_pair in Hfail |- *. rewrite trace_pair.
      apply write_reports_fails in Hfail as [-> _]. split; [done|].
      exists ts, sponsors, tt. split_and!; [done..|]. apply Forall_app. by split.
    + exfalso. revert Hsome. unfold main. rewrite Hs, (bind_Raise _ _ ts e eq_refl).
      by apply Hex.
    + exfalso. revert Hsome. unfold main. rewrite Hs, (bind_OutOfFuel _ _ ts eq_refl).
      by apply Hex.
  - intros Hn Hr ts sponsors tt Hs Ht.
    rewrite (main_fetched _ _ _ _ _ _ _ Hs Ht).
    unfold write_reports, write_json. by rewrite Hn, Hr.
Qed.

Lemma incomplete_run_reports_witness :
  main Scenario.cfg Fetching.roster_refused 1
  = ([Sent (PostGraphql "null");
      Sent (GetMembers Scenario.org Scenario.team 1);
      Sent (GetInvitations Scenario.org Scenario.team);
      Sent (DeleteMembership Scenario.org Scenario.team "carol");
      Printed (Removed "carol" Scenario.org Scenario.team);
      Sent (PutMembership Scenario.org Scenario.team "alice");
      Printed (Added "alice" Scenario.org Scenario.team);
      Sent (PutMembership Scenario.org Scenario.team "bob");
      Printed (Added "bob" Scenario.org Scenario.team);
      Wrote "numbers.json" (Numbers 15 2)],
     Raise OSError)
  ∧ ∀ c, Wrote "sponsors.json" c ∉ trace (main Scenario.cfg Fetching.roster_refused 1).
Proof.
  destruct (incomplete_run_reports Scenario.cfg Fetching.roster_refused 1)
    as (Hroster & _ & Hnumbers).
  - vm_compute. intros [=].
  - split; [|exact Hroster].
    rewrite (Hnumbers eq_refl eq_refl [Sent (PostGraphql "null")] Scenario.sponsors
               [Sent (GetMembers Scenario.org Scenario.team 1);
                Sent (GetInvitations Scenario.org Scenario.team);
                Sent (DeleteMembership Scenario.org Scenario.team "carol");
                Printed (Removed "carol" Scenario.org Scenario.team);
                Sent (PutMembership Scenario.org Scenario.team "alice");
                Printed (Added "alice" Scenario.org Scenario.team);
                Sent (PutMembership Scenario.org Scenario.team "bob");
                Printed (Added "bob" Scenario.org Scenario.team)]).
    + vm_compute. exact eq_refl.
    + vm_compute. exact eq_refl.
    + vm_compute. exact eq_refl.
Defined.

(** ** The reconciliation loop (lines 205-214) *)

(** X15.  Once both listings of a team are fetched, whatever the provider
    answers afterwards and wherever the loop body stops, every grant it
    sends is for that team and for a handle of the eligibility set outside
    the snapshot [get_members(...) | get_invited(...)], and every revoke
    is for that team and for a handle of the snapshot outside the
    eligibility set. *)
Theorem calls_within_differences (w : World) (fuel : nat) (eligible : gset string)
    (org team : string) (tm ti : list event) (confirmed invited : gset string) :
  get_members w fuel org team = (tm, Return confirmed) →
  get_invited w org team = (ti, Return invited) →
  ∀ o t user,
    (Sent (PutMembership o t user) ∈ trace (reconcile_team w fuel eligible (org, team)) →
     (o, t) = (org, team) ∧ user ∈ toGrant (confirmed ∪ invited) eligible)
    ∧ (Sent (DeleteMembership o t user)
         ∈ trace (reconcile_team w fuel eligible (org, team)) →
       (o, t) = (org, team) ∧ user ∈ toRevoke (confirmed ∪ invited) eligible).
Proof.
  intros Hm Hi.
  pose (P := λ e, match e with
                  | Sent (PutMembership o t user) =>
                      (o, t) = (org, team) ∧ user ∈ toGrant (confirmed ∪ invited) eligible
                  | Sent (DeleteMembership o t user) =>
                      (o, t) = (org, team) ∧ user ∈ toRevoke (confirmed ∪ invited) eligible
                  | _ => True
                  end).
  assert (Forall P (trace (reconcile_team w fuel eligible (org, team)))) as Hall.
  { rewrite (reconcile_team_fetched _ _ _ _ _ _ _ _ _ Hm Hi), trace_pair.
    assert (tm = trace (get_members w fuel org team)) as -> by by rewrite Hm.
    assert (ti = trace (get_invited w org team)) as -> by by rewrite Hi.
    apply Forall_app. split; [by apply trace_get_members_loop|].
    apply Forall_app. split; [by apply trace_get_invited|].
    apply trace_bind.
    - apply trace_for_each. intros user Hin.
      destruct (decide (user ∉ eligible)); [|constructor].
      apply trace_revoke; [|done]. split; [done|].
      unfold toRevoke. rewrite elem_of_difference.
      split; [by apply elem_of_members_order in Hin|done].
    - intros _. apply trace_for_each. intros user Hin.
      destruct (decide (user ∉ confirmed ∪ invited)); [|constructor].
      apply trace_grant; [|done]. split; [done|].
      unfold toGrant. rewrite elem_of_difference.
      split; [by apply elem_of_eligible_order in Hin|done]. }
  intros o t user.
  split; intros Hin; by apply (proj1 (Forall_forall _ _) Hall) in Hin.
Qed.

Lemma calls_within_differences_witness :
  "alice" ∈ toGrant ({["zed"; "carol"]} ∪ ∅) {["alice"; "zed"; "bob"]}.
Proof.
  refine (proj2 (proj1 (calls_within_differences Scenario.flaky 1 {["alice"; "zed"; "bob"]}
                          Scenario.org Scenario.team
                          [Sent (GetMembers Scenario.org Scenario.team 1)]
                          [Sent (GetInvitations Scenario.org Scenario.team)]
                          {["zed"; "carol"]} ∅ _ _
                          Scenario.org Scenario.team "alice") _)).
  - vm_compute. exact eq_refl.
  - vm_compute. exact eq_refl.
  - vm_compute. repeat constructor.
Defined.

(** X16.  In a run whose sponsorship fetch returned, every grant is for
    a handle of the eligibility set and every revoke for a handle outside
    it, for every provider and every way the run ends; so no handle is
    both granted and revoked in one run. *)
Theorem calls_follow_eligibility (cfg : Config) (w : World) (fuel : nat)
    (ts : list event) (sponsors : list Sponsor) :
  get_sponsors w fuel = (ts, Return sponsors) →
  (∀ org team user,
     Sent (PutMembership org team user) ∈ trace (main cfg w fuel) →
     user ∈ eligible_users cfg sponsors)
  ∧ (∀ org team user,
       Sent (DeleteMembership org team user) ∈ trace (main cfg w fuel) →
       user ∉ eligible_users cfg sponsors)
  ∧ granted (trace (main cfg w fuel)) ## revoked (trace (main cfg w fuel)).
Proof.
  intros Hs.
  pose (P := λ e, match e with
                  | Sent (PutMembership _ _ user) => user ∈ eligible_users cfg sponsors
                  | Sent (DeleteMembership _ _ user) => user ∉ eligible_users cfg sponsors
                  | _ => True
                  end).
  assert (Forall P (trace (main cfg w fuel))) as Hall.
  { unfold main. rewrite (bind_Return (get_sponsors w fuel) _ _ _ Hs), trace_pair.
    apply Forall_app. split.
    - assert (ts = trace (get_sponsors w fuel)) as -> by by rewrite Hs.
      by apply trace_get_sponsors_loop.
    - apply trace_bind; [|intros; by apply trace_write_reports].
      apply trace_for_each. intros [org team] _. by apply trace_reconcile_team. }
  assert (∀ org team user,
            Sent (PutMembership org team user) ∈ trace (main cfg w fuel) →
            user ∈ eligible_users cfg sponsors) as Hput.
  { intros org team user Hin. by apply (proj1 (Forall_forall _ _) Hall) in Hin. }
  assert (∀ org team user,
            Sent (DeleteMembership org team user) ∈ trace (main cfg w fuel) →
            user ∉ eligible_users cfg sponsors) as Hdel.
  { intros org team user Hin. by apply (proj1 (Forall_forall _ _) Hall) in Hin. }
  split; [done|]. split; [done|].
  apply elem_of_disjoint. intros user Hg Hr. unfold granted, revoked in Hg, Hr.
  apply elem_of_list_to_set, list_elem_of_fmap in Hg as ([[o t] u] & -> & Hg).
  apply elem_of_list_to_set, list_elem_of_fmap in Hr as ([[o' t'] u'] & Heq & Hr).
  simpl in Heq. subst u'.
  apply elem_of_grant_calls in Hg. apply elem_of_revoke_calls in Hr.
  by apply (Hdel _ _ _ Hr), (Hput _ _ _ Hg).
Qed.

Lemma calls_follow_eligibility_witness :
  granted (trace (main Scenario.cfg Scenario.flaky 1))
  ## revoked (trace (main Scenario.cfg Scenario.flaky 1)).
Proof.
  apply (calls_follow_eligibility Scenario.cfg Scenario.flaky 1
           [Sent (PostGraphql "null")] Scenario.sponsors).
  vm_compute. exact eq_refl.
Defined.

(** X17.  A run addresses the configured teams only: every member
    listing, invitation listing, grant and revoke request of a run names a
    pair of [INSIDERS_TEAMS]; with no team configured, none is sent. *)
Theorem requests_target_configured_teams (cfg : Config) (w : World) (fuel : nat) :
  (∀ e target, e ∈ trace (main cfg w fuel) → target_of e = Some target →
               target ∈ INSIDERS_TEAMS cfg)
  ∧ (INSIDERS_TEAMS cfg = [] →
     Forall (λ e, target_of e = None) (trace (main cfg w fuel))).
Proof.
  pose (P := λ e, ∀ target, target_of e = Some target → target ∈ INSIDERS_TEAMS cfg).
  assert (Forall P (trace (main cfg w fuel))) as Hall.
  { unfold main. apply trace_bind; [by apply trace_get_sponsors_loop|]. intros sponsors.
    apply trace_bind; [|intros; by apply trace_write_reports].
    apply trace_for_each. intros [org team] Hin.
    assert (∀ r, target_of (Sent r) = Some (org, team) → P (Sent r)) as Hhere
      by (intros r Hr target; rewrite Hr; by intros [= <-]).
    unfold reconcile_team.
    apply trace_bind; [apply trace_get_members_loop; intros; by apply Hhere|].
    intros confirmed.
    apply trace_bind; [apply trace_get_invited; by apply Hhere|]. intros invited.
    apply trace_bind.
    - apply trace_for_each. intros user _.
      destruct (decide (user ∉ eligible_users cfg sponsors)); [|constructor].
      apply trace_revoke; [by apply Hhere|done].
    - intros _. apply trace_for_each. intros user _.
      destruct (decide (user ∉ confirmed ∪ invited)); [|constructor].
      apply trace_grant; [by apply Hhere|done]. }
  split.
  - intros e target Hin. apply (proj1 (Forall_forall _ _) Hall) in Hin. exact (Hin target).
  - intros Hnone. eapply Forall_impl; [exact Hall|]. intros e He.
    destruct (target_of e) as [target|] eqn:Ht; [|done].
    specialize (He target Ht). rewrite Hnone in He. by apply elem_of_nil in He.
Qed.

Lemma requests_target_configured_teams_witness :
  main (mkConfig 4 [] {["zed"]} ∅) Scenario.world 1
  = ([Sent (PostGraphql "null")] ++ reports Scenario.sponsors, Return ())
  ∧ Forall (λ e, target_of e = None)
      (trace (main (mkConfig 4 [] {["zed"]} ∅) Scenario.world 1)).
Proof.
  split; [vm_compute; exact eq_refl|].
  by apply (requests_target_configured_teams (mkConfig 4 [] {["zed"]} ∅) Scenario.world 1).
Defined.

(** X18.  With both listings fetched and mutation responses in the
    provider's format, the loop body for a team completes, grants exactly
    the eligible handles outside the snapshot and revokes exactly the
    handles of the snapshot outside the eligibility set, each handle by a
    single request. *)
Theorem reconcile_team_applies_differences (w : World) (fuel : nat)
    (eligible : gset string) (org team : string) (tm ti : list event)
    (confirmed invited : gset string) :
  get_members w fuel org team = (tm, Return confirmed) →
  get_invited w org team = (ti, Return invited) →
  (∀ user, provider_error_body (w (PutMembership org team user))) →
  (∀ user, provider_error_body (w (DeleteMembership org team user))) →
  let run := reconcile_team w fuel eligible (org, team) in
  result run = Return ()
  ∧ granted (trace run) = toGrant (confirmed ∪ invited) eligible
  ∧ revoked (trace run) = toRevoke (confirmed ∪ invited) eligible
  ∧ NoDup (grant_calls (trace run))
  ∧ NoDup (revoke_calls (trace run)).
Proof.
  intros Hm Hi Hput Hdel run. subst run.
  destruct (reconcile_team_calls w fuel eligible _ _ _ _ _ _ Hm Hi Hput Hdel)
    as (t & -> & Hg & Hr).
  rewrite trace_pair, result_pair. unfold granted, revoked. rewrite Hg, Hr.
  destruct (grant_list_toGrant w (confirmed ∪ invited) eligible) as [Hgs Hgn].
  destruct (revoke_list_toRevoke w org team (confirmed ∪ invited) eligible) as [Hrs Hrn].
  rewrite !snd_calls. split; [done|]. split; [done|]. split; [done|].
  split; (apply NoDup_fmap_2; [by intros ?? [=]|done]).
Qed.

Lemma reconcile_team_applies_differences_witness :
  granted (trace (reconcile_team Scenario.rejecting 1 {["alice"; "zed"; "bob"]}
                    (Scenario.org, Scenario.team)))
  = toGrant ({["zed"; "carol"]} ∪ ∅) {["alice"; "zed"; "bob"]}.
Proof.
  refine (proj1 (proj2 (reconcile_team_applies_differences Scenario.rejecting 1
                          {["alice"; "zed"; "bob"]} Scenario.org Scenario.team
                          [Sent (GetMembers Scenario.org Scenario.team 1)]
                          [Sent (GetInvitations Scenario.org Scenario.team)]
                          {["zed"; "carol"]} ∅ _ _ _ _))).
  - vm_compute. exact eq_refl.
  - vm_compute. exact eq_refl.
  - intros user. apply (rejecting_well_formed (PutMembership _ _ user)).
  - intros user. apply (rejecting_well_formed (DeleteMembership _ _ user)).
Defined.

Lemma trace_bind_split {A B} (P Q : event → Prop) (t0 : list event) (m : M A)
    (k : A → M B) :
  Forall P t0 → Forall P (trace m) →
  (∀ a, ∃ t1 t2, t0 ++ trace m ++ trace (k a) = t1 ++ t2 ∧ Forall P t1 ∧ Forall Q t2) →
  ∃ t1 t2, t0 ++ trace (m ≫= k) = t1 ++ t2 ∧ Forall P t1 ∧ Forall Q t2.
Proof.
  intros H0 Hm Hk. destruct m as [t [a| |]].
  - rewrite (bind_Return (t, Return a) k t a eq_refl), trace_pair. apply Hk.
  - exists (t0 ++ t), []. rewrite app_nil_r. split; [done|].
    split; [apply Forall_app; by split|constructor].
  - exists (t0 ++ t), []. rewrite app_nil_r. split; [done|].
    split; [apply Forall_app; by split|constructor].
Qed.

(** X19.  For each team the revokes come first: the trace of the loop
    body divides into a part without any grant request followed by a part
    without any revoke request, for every provider and every way the body
    ends. *)
Theorem revokes_precede_grants (w : World) (fuel : nat) (eligible : gset string)
    (org team : string) :
  ∃ t1 t2,
    trace (reconcile_team w fuel eligible (org, team)) = t1 ++ t2
    ∧ Forall (λ e, ¬ is_grant e) t1
    ∧ Forall (λ e, ¬ is_revoke e) t2.
Proof.
  change (trace (reconcile_team w fuel eligible (org, team)))
    with ([] ++ trace (reconcile_team w fuel eligible (org, team))).
  unfold reconcile_team.
  apply trace_bind_split; [constructor|apply trace_get_members_loop; intros ? []|].
  intros confirmed. rewrite app_assoc.
  assert (Forall (λ e, ¬ is_grant e) ([] ++ trace (get_members w fuel org team))) as Hm
    by (apply Forall_app; split; [constructor|apply trace_get_members_loop; intros ? []]).
  apply trace_bind_split; [done|apply trace_get_invited; intros []|].
  intros invited. rewrite app_assoc.
  set (t0 := ([] ++ trace (get_members w fuel org team)) ++ trace (get_invited w org team)).
  assert (Forall (λ e, ¬ is_grant e) t0) as H0
    by (apply Forall_app; split; [done|apply trace_get_invited; intros []]).
  apply trace_bind_split; [done| |].
  - apply trace_for_each. intros user _.
    destruct (decide (user ∉ eligible)); [|constructor].
    apply trace_revoke; [intros []|intros ? []].
  - intros _. eexists _, _. split; [by rewrite app_assoc|]. split.
    + apply Forall_app. split; [done|].
      apply trace_for_each. intros user _.
      destruct (decide (user ∉ eligible)); [|constructor].
      apply trace_revoke; [intros []|intros ? []].
    + apply trace_for_each. intros user _.
      destruct (decide (user ∉ confirmed ∪ invited)); [|constructor].
      apply trace_grant; [intros []|intros ? []].
Qed.

(** ** get_invited (lines 152-159) *)

(** X20.  [get_invited] reads one page only: whatever the provider
    answers it sends a single request; a successful listing is returned
    whole, also when it holds 100 entries or more, and a response outside
    2xx ends the call with the HTTP status error. *)
Theorem get_invited_single_request (w : World) (org team : string) :
  let response := w (GetInvitations org team) in
  trace (get_invited w org team) = [Sent (GetInvitations org team)]
  ∧ (∀ users, is_success response = true → content response = JsonUsers users →
              result (get_invited w org team) = Return (logins users))
  ∧ (is_success response = false →
     result (get_invited w org team) = Raise (HTTPStatusError (status_code response))).
Proof.
  intros response. subst response. unfold get_invited.
  rewrite send_bind, trace_pair, result_pair. unfold raise_for_status, json_users.
  destruct (is_success (w (GetInvitations org team))).
  - rewrite mret_bind. split; [|split; [|done]].
    + destruct (content (w (GetInvitations org team))) as [|fields| | |]; try done.
      by destruct (decide (fields = ∅)).
    + intros users _ ->. by rewrite mret_bind.
  - split; [done|]. split; [done|]. by intros _.
Qed.

Lemma get_invited_single_request_witness :
  get_invited (provider [] [] Paged.first_page accepted removed) Paged.org Paged.team
  = ([Sent (GetInvitations Paged.org Paged.team)], Return (logins Paged.first_page))
  ∧ result (get_invited Fetching.no_invitations_access Scenario.org Scenario.team)
    = Raise (HTTPStatusError 401).
Proof.
  split.
  - destruct (get_invited_single_request
                (provider [] [] Paged.first_page accepted removed) Paged.org Paged.team)
      as (Ht & Hr & _).
    specialize (Hr Paged.first_page eq_refl eq_refl).
    destruct (get_invited _ _ _) as [t o]. cbn in Ht, Hr. by subst.
  - by apply (get_invited_single_request Fetching.no_invitations_access
                Scenario.org Scenario.team).
Defined.
